(** * restage: the stage-directory packer and unpacker

    A shallow embedding of [restage.py] and the properties of its
    container format: the name checksum, the config-list state machine,
    the per-stage header records with their cache-run offsets, the sector
    arithmetic of the container, and the unpacker that reads it all back.

    Python values are modelled as follows.  A [str] is a [string] whose
    characters are code points below 256; [bytes] are a [list Z] of values
    below 256; lengths, sizes and file positions (never negative in the
    program) are [nat]; integers that go through [struct] or are
    subtracted are [Z].  A raised exception is a [Raise] result. *)

From Stdlib Require Import ZArith Lia Ascii String List DecimalString.
From stdpp Require Import base option list strings gmap.

Local Open Scope string_scope.
Local Open Scope list_scope.
Local Open Scope nat_scope.

(** ** Exceptions *)

Inductive exn : Set :=
| AssertionError
| ValueError
| IndexError
| KeyError
| OSError
| UnicodeEncodeError
| UnicodeDecodeError
| StructError.

Inductive result (A : Type) : Type :=
| Ok (a : A)
| Raise (e : exn).
Global Arguments Ok {A} a.
Global Arguments Raise {A} e.

Definition bind {A B : Type} (m : result A) (f : A -> result B) : result B :=
  match m with
  | Ok a => f a
  | Raise e => Raise e
  end.

Notation "'let*' x ':=' m 'in' k" := (bind m (fun x => k))
  (at level 10, x pattern, m at level 100, k at level 200).


(** ** Characters and strings *)

Definition ord (c : ascii) : nat := nat_of_ascii c.
Definition chr (n : nat) : ascii := ascii_of_nat n.

(** [str.isspace] on code points below 256. *)
Definition isspace (c : ascii) : bool :=
  let n := ord c in
  ((9 <=? n) && (n <=? 13)) || ((28 <=? n) && (n <=? 32))
  || (n =? 133) || (n =? 160).

Fixpoint lstrip (s : string) : string :=
  match s with
  | EmptyString => EmptyString
  | String c s' => if isspace c then lstrip s' else s
  end.

Fixpoint rstrip (s : string) : string :=
  match s with
  | EmptyString => EmptyString
  | String c s' =>
      match rstrip s' with
      | EmptyString => if isspace c then EmptyString else String c EmptyString
      | t => String c t
      end
  end.

(** [str.strip()] *)
Definition strip (s : string) : string := rstrip (lstrip s).

(** [str.split(sep)] for a one-character separator. *)
Fixpoint split (sep : ascii) (s : string) : list string :=
  match s with
  | EmptyString => [EmptyString]
  | String c s' =>
      if Ascii.eqb c sep then EmptyString :: split sep s'
      else match split sep s' with
           | x :: xs => String c x :: xs
           | [] => [String c EmptyString]
           end
  end.

(** [sub in s] for strings. *)
Fixpoint contains (sub s : string) : bool :=
  String.prefix sub s ||
  match s with
  | EmptyString => false
  | String _ s' => contains sub s'
  end.

(** Decimal and four-digit lowercase hexadecimal formatting, as the
    f-strings [{n}] and [{n:04x}] produce them. *)
Definition hex_digit (n : nat) : ascii :=
  if n <? 10 then chr (48 + n) else chr (87 + n).

Definition hex4 (n : nat) : string :=
  String (hex_digit (n / 4096 mod 16))
 (String (hex_digit (n / 256 mod 16))
 (String (hex_digit (n / 16 mod 16))
 (String (hex_digit (n mod 16)) EmptyString))).

Definition dec (n : nat) : string := NilZero.string_of_uint (Nat.to_uint n).

Definition dec_Z (z : Z) : string := NilZero.string_of_int (Z.to_int z).

(** ** Bytes and [struct] *)

Fixpoint le_bytes (n : nat) (v : Z) : list Z :=
  match n with
  | O => []
  | S n' => (v mod 256)%Z :: le_bytes n' (v / 256)%Z
  end.

Fixpoint le_value (bs : list Z) : Z :=
  match bs with
  | [] => 0%Z
  | b :: bs' => (b + 256 * le_value bs')%Z
  end.

Inductive fmt : Set :=
| fmt_H   (* "<H" *)
| fmt_B   (* "<B" *)
| fmt_I   (* "<I" *)
| fmt_h.  (* "<h" *)

Definition calcsize (f : fmt) : nat :=
  match f with
  | fmt_H => 2
  | fmt_B => 1
  | fmt_I => 4
  | fmt_h => 2
  end.

Definition fmt_min (f : fmt) : Z :=
  match f with
  | fmt_h => (-32768)%Z
  | _ => 0%Z
  end.

Definition fmt_max (f : fmt) : Z :=
  match f with
  | fmt_H => 65535%Z
  | fmt_B => 255%Z
  | fmt_I => 4294967295%Z
  | fmt_h => 32767%Z
  end.

(** [struct.pack(fmt, v)]: a value outside the format's range raises
    [struct.error]. *)
Definition struct_pack (f : fmt) (v : Z) : result (list Z) :=
  if ((fmt_min f <=? v) && (v <=? fmt_max f))%Z
  then Ok (le_bytes (calcsize f) v)
  else Raise StructError.

(** [struct.unpack(fmt, raw)]: a buffer of the wrong length raises
    [struct.error]. *)
Definition struct_unpack (f : fmt) (raw : list Z) : result Z :=
  if length raw =? calcsize f then
    let v := le_value raw in
    match f with
    | fmt_h => Ok (if (v <? 32768)%Z then v else (v - 65536)%Z)
    | _ => Ok v
    end
  else Raise StructError.

(** [struct.pack("8s", b)]: truncated or zero-padded to eight bytes. *)
Definition struct_pack_8s (b : list Z) : list Z :=
  take 8 b ++ replicate (8 - length b) 0%Z.

(** ** The two buffers *)

(** What a file opened with ["wb"] holds after [bs] is written at offset
    [pos]: a gap past the old end is filled with zero bytes, and writing
    no bytes leaves the file as it is. *)
Definition file_write (data : list Z) (pos : nat) (bs : list Z) : list Z :=
  match bs with
  | [] => data
  | _ => resize pos 0%Z data ++ bs ++ drop (pos + length bs) data
  end.

Module BufWriter.

Record t : Type := mk { file : list Z; pos : nat }.

Definition write (data : list Z) (b : t) : t :=
  {| file := file_write (file b) (pos b) data;
     pos := pos b + length data |}.

Definition cur (b : t) : nat := pos b.

Definition align (n : nat) (b : t) : t :=
  let cur := cur b in
  let aligned := ((cur + (n - 1)) / n) * n in
  write (replicate (aligned - cur) 0%Z) b.

Definition pack (f : fmt) (v : Z) (b : t) : result t :=
  let* raw := struct_pack f v in
  Ok (write raw b).

Definition pack_8s (s : list Z) (b : t) : t :=
  write (struct_pack_8s s) b.

Definition seek (off : nat) (b : t) : t :=
  {| file := file b; pos := off |}.

End BufWriter.

Module BufReader.

Record t : Type := mk { file : list Z; pos : nat }.

(** [file.read(size)]: at most [size] bytes, fewer at the end of the
    file; [-1] reads to the end and a smaller size is refused. *)
Definition read (size : Z) (b : t) : result (list Z * t) :=
  if (size <? -1)%Z then Raise ValueError
  else
    let rest := drop (pos b) (file b) in
    let got := if (size =? -1)%Z then rest else take (Z.to_nat size) rest in
    Ok (got, {| file := file b; pos := pos b + length got |}).

Definition cur (b : t) : nat := pos b.

Definition align (n : nat) (b : t) : t :=
  let cur := cur b in
  let aligned := ((cur + (n - 1)) / n) * n in
  match read (Z.of_nat (aligned - cur)) b with
  | Ok (_, b') => b'
  | Raise _ => b
  end.

Definition unpack (f : fmt) (b : t) : result (Z * t) :=
  let* (raw, b) := read (Z.of_nat (calcsize f)) b in
  let* data := struct_unpack f raw in
  Ok (data, b).


Definition seek (off : Z) (b : t) : result t :=
  if (off <? 0)%Z then Raise OSError
  else Ok {| file := file b; pos := Z.to_nat off |}.

End BufReader.

(** ** Stage directories and entries *)

(** One entry of [files] in [pack_stage]: [(name, ext, section, size)]. *)
Definition stage_file : Type := string * string * ascii * nat.

(** One entry of [files] in [unpack_stage]: [(name, mode, size)]. *)
Definition entry : Type := string * ascii * Z.

(** A stage directory: the lines of [data.cnf] as [readlines()] returns
    them, and the content of every other file by name. *)
Record stage_dir : Type := {
  data_cnf : list string;
  assets : gmap string (list Z)
}.

(** What unpacking one stage leaves behind: the lines written to
    [data.cnf], the files written in order, each with its name and
    content, and the warnings printed. *)
Record unpacked : Type := {
  u_config : list string;
  u_written : list (string * list Z);
  u_warnings : list string
}.

Definition nl : string := String (chr 10) EmptyString.

Definition section_is (section : option ascii) (c : ascii) : bool :=
  match section with
  | Some s => Ascii.eqb s c
  | None => false
  end.

Definition section_none (section : option ascii) : bool :=
  match section with
  | Some _ => false
  | None => true
  end.

(** [files[i + 1][2] != 'c'], or there is no [files[i + 1]]. *)
Definition run_ends (rest : list stage_file) : bool :=
  match rest with
  | [] => true
  | (_, _, section, _) :: _ => negb (Ascii.eqb section "c")
  end.

(** The checksum as the specification words it: the accumulator starts at
    zero and takes each byte in turn. *)
Fixpoint checksum_from (acc : Z) (bs : list Z) : Z :=
  match bs with
  | [] => acc
  | b :: bs' =>
      let acc := Z.land (Z.lor (Z.shiftr acc 11) (Z.shiftl acc 5)) 65535 in
      let acc := Z.land (acc + b) 65535 in
      checksum_from acc bs'
  end.

Definition checksum_spec (bs : list Z) : Z := checksum_from 0 bs.

(** ** The program *)

Section Codec.

(** The EUC-JP codec of the Python runtime: [encode s] is the byte
    string [s.encode("EUC-JP")], or [None] where it raises. *)
Variable encode : string -> option (list Z).

(** [str.islower] of the Python runtime on a one-character string. *)
Variable islower : ascii -> bool.

(** One turn of the loop body of [strcode]. *)
Definition strcode_step (code s : Z) : Z :=
  let code := Z.lor (Z.shiftr code 11) (Z.shiftl code 5) in
  let code := Z.land code 65535 in
  let code := (code + s)%Z in
  let code := Z.land code 65535 in
  code.

Definition strcode (string : string) : result Z :=
  match encode string with
  | None => Raise UnicodeEncodeError
  | Some bs => Ok (fold_left strcode_step bs 0%Z)
  end.

(** *** pack_stage *)

(** The [for line in config.readlines()] loop. *)
Fixpoint read_config (dir : gmap string (list Z)) (lines : list string)
    (section : option ascii) (files : list stage_file) : result (list stage_file) :=
  match lines with
  | [] => Ok files
  | line :: lines =>
      let line := strip line in
      if String.eqb line ".resident" then
        if section_none section
        then read_config dir lines (Some "r"%char) files
        else Raise AssertionError
      else if String.eqb line ".nocache" then
        if section_none section || section_is section "r"
        then read_config dir lines (Some "n"%char) files
        else Raise AssertionError
      else if String.eqb line ".cache" then
        if section_is section "r" || section_is section "n"
        then read_config dir lines (Some "c"%char) files
        else Raise AssertionError
      else if String.eqb line ".sound" then
        if section_is section "c"
        then read_config dir lines (Some "s"%char) files
        else Raise AssertionError
      else
        match section with
        | None => Raise AssertionError
        | Some sec =>
            match split "." line with
            | [name; ext] =>
                match dir !! line with
                | None => Raise OSError
                | Some content =>
                    read_config dir lines section
                      (files ++ [(name, ext, sec, length content)])
                end
            | _ => Raise ValueError
            end
        end
  end.

(** The first [for i in range(len(files))] loop: one 8-byte record per
    entry and a trailer record where a cache run ends.  The argument is
    [files[i:]]. *)
Fixpoint pack_records (files : list stage_file) (in_cache : bool)
    (cache_size : nat) (buf : BufWriter.t) : result BufWriter.t :=
  match files with
  | [] => Ok buf
  | (name, ext, section, size) :: rest =>
      let in_cache :=
        if negb in_cache && Ascii.eqb section "c" then true else in_cache in
      let* buf := (if String.eqb ext "dar" then BufWriter.pack fmt_H 0 buf
             else let* code := strcode name in BufWriter.pack fmt_H code buf) in
      let* buf := (if String.eqb ext "bin"
             then BufWriter.pack fmt_B (Z.of_nat (ord "s")) buf
             else BufWriter.pack fmt_B (Z.of_nat (ord section)) buf) in
      let* ext0 := match ext with
             | String c _ => Ok c
             | EmptyString => Raise IndexError
             end in
      let* buf := BufWriter.pack fmt_B (Z.of_nat (ord ext0)) buf in
      let* (buf, cache_size) :=
        (if in_cache
         then let* buf := BufWriter.pack fmt_I (Z.of_nat cache_size) buf in
              Ok (buf, cache_size + size)
         else let* buf := BufWriter.pack fmt_I (Z.of_nat size) buf in
              Ok (buf, cache_size)) in
      if in_cache && run_ends rest then
        let* buf := BufWriter.pack fmt_H 0 buf in
        let* buf := BufWriter.pack fmt_B (Z.of_nat (ord "c")) buf in
        let* buf := BufWriter.pack fmt_B (Z.of_nat (ord "255")) buf in
        let* buf := BufWriter.pack fmt_I (Z.of_nat cache_size) buf in
        pack_records rest false cache_size buf
      else pack_records rest in_cache cache_size buf
  end.

(** The second loop: the content of every entry, padded to a sector
    except inside a cache run. *)
Fixpoint pack_payload (dir : gmap string (list Z)) (files : list stage_file)
    (buf : BufWriter.t) : result BufWriter.t :=
  match files with
  | [] => Ok buf
  | (name, ext, section, size) :: rest =>
      match dir !! (name +:+ "." +:+ ext) with
      | None => Raise OSError
      | Some content =>
          let buf := BufWriter.write content buf in
          let buf :=
            if negb (Ascii.eqb section "c") then BufWriter.align 2048 buf
            else if run_ends rest then BufWriter.align 2048 buf
            else buf in
          pack_payload dir rest buf
      end
  end.

(** [pack_stage] returns the stage's byte length, the buffer and the
    warnings it printed. *)
Definition pack_stage (stage : stage_dir) (buf : BufWriter.t)
    : result (nat * BufWriter.t * list string) :=
  let* files := read_config (assets stage) (data_cnf stage) None [] in
  let start := BufWriter.cur buf in
  let buf := BufWriter.seek (start + 4) buf in
  let* buf := pack_records files false 0 buf in
  let buf := BufWriter.align 2048 buf in
  let* buf := pack_payload (assets stage) files buf in
  let header := 4 + length files * 8 in
  let header := ((header + 2047) / 2048) * 2048 in
  let total := BufWriter.cur buf in
  let out :=
    if 255 <? length files
    then ["WARNING: file header size is " +:+ dec header
          +:+ ", expected 2048"]
    else [] in
  let buf := BufWriter.seek start buf in
  let* buf := BufWriter.pack fmt_h (Z.of_nat (header / 2048)) buf in
  let* buf := BufWriter.pack fmt_h (Z.of_nat ((total - start) / 2048)) buf in
  let buf := BufWriter.seek total buf in
  Ok (total - start, buf, out).

(** *** pack_dir *)

(** [str.encode('ascii')] *)
Fixpoint encode_ascii (s : string) : result (list Z) :=
  match s with
  | EmptyString => Ok []
  | String c s' =>
      if ord c <? 128
      then let* bs := encode_ascii s' in Ok (Z.of_nat (ord c) :: bs)
      else Raise UnicodeEncodeError
  end.

(** The [for stage in stages] loop; [world] maps a stage name to its
    directory. *)
Fixpoint pack_stages (world : gmap string stage_dir) (stages : list string)
    (buf : BufWriter.t) (sizes : list (string * nat)) (out : list string)
    : result (BufWriter.t * list (string * nat) * list string) :=
  match stages with
  | [] => Ok (buf, sizes, out)
  | stage :: stages =>
      match (world !! stage : option stage_dir) with
      | None => Raise OSError
      | Some dir =>
          let* (size, buf, warn) := pack_stage dir buf in
          let sizes := sizes ++ [(stage, size)] in
          let buf := BufWriter.align 2048 buf in
          pack_stages world stages buf sizes (out ++ warn)
      end
  end.

(** The [for (stage, size) in sizes] loop that fills in the table. *)
Fixpoint write_table (sizes : list (string * nat)) (off : nat)
    (buf : BufWriter.t) : result BufWriter.t :=
  match sizes with
  | [] => Ok buf
  | (stage, size) :: sizes =>
      let* name := encode_ascii stage in
      let buf := BufWriter.pack_8s name buf in
      let* buf := BufWriter.pack fmt_I (Z.of_nat off) buf in
      let off := off + (size + 2047) / 2048 in
      write_table sizes off buf
  end.

(** [pack_dir]: [stage_list] holds the lines of [stage_list.txt]; the
    result is the content of the output file and what was printed
    before the closing message. *)
Definition pack_dir (stage_list : list string)
    (world : gmap string stage_dir) : result (list Z * list string) :=
  let stages := map strip stage_list in
  let buf := BufWriter.mk [] 0 in
  let header_size := length stages * 12 in
  let* buf := BufWriter.pack fmt_I (Z.of_nat header_size) buf in
  let buf := BufWriter.seek (((header_size + 2047) / 2048) * 2048) buf in
  let* (buf, sizes, out) := pack_stages world stages buf [] [] in
  let buf := BufWriter.seek 4 buf in
  let* buf := write_table sizes 1 buf in
  Ok (BufWriter.file buf, out).

(** *** unpack_stage *)


(** [mode in "cnrs"] *)
Definition mode_ok (mode : ascii) : bool :=
  contains (String mode EmptyString) "cnrs".

Definition directive (mode : ascii) : string :=
  if Ascii.eqb mode "c" then ".cache" +:+ nl
  else if Ascii.eqb mode "n" then ".nocache" +:+ nl
  else if Ascii.eqb mode "r" then ".resident" +:+ nl
  else ".sound" +:+ nl.

(** [write_stage_config]: [config] collects what is written to
    [data.cnf]. *)
Fixpoint write_stage_config (files : list entry) (section : option ascii)
    (config : list string) : result (list string) :=
  match files with
  | [] => Ok config
  | (name, mode, _) :: files =>
      if negb (mode_ok mode) then Raise AssertionError
      else if String.eqb name "cache_end"
      then write_stage_config files section config
      else
        let mode := if contains ".bin" name then "n"%char else mode in
        let '(config, section) :=
          if negb (section_is section mode)
          then (config ++ [directive mode], Some mode)
          else (config, section) in
        write_stage_config files section (config ++ [name +:+ nl])
  end.

(** The variables the [while True] loop of [unpack_stage] updates,
    the buffer apart. *)
Record parse_state : Type := {
  p_files : list entry;
  p_mdl_count : nat;
  p_tex_count : nat;
  p_dar_name : string
}.

(** The loop body once the four fields are read and [mode] is not the
    terminator: the two assertions, the name, and the append. *)
Definition record_entry (table : gmap string string) (st : parse_state)
    (name : Z) (mode ext : ascii) (size : Z) : result parse_state :=
  if negb (mode_ok mode) then Raise AssertionError
  else if negb (islower ext || Ascii.eqb ext "255") then Raise AssertionError
  else
    let dar_name := if Ascii.eqb mode "r" then "res" else p_dar_name st in
    let* (name, mdl_count, tex_count) :=
      (if negb (name =? 0)%Z then
         match table !! (hex4 (Z.to_nat name) +:+ "."
                         +:+ String ext EmptyString) with
         | Some name => Ok (name, p_mdl_count st, p_tex_count st)
         | None => Raise KeyError
         end
       else if negb (Ascii.eqb ext "255")
               && contains (String mode EmptyString) "cr" then
         Ok (dar_name +:+ "_mdl" +:+ dec (p_mdl_count st) +:+ ".dar",
             p_mdl_count st + 1, p_tex_count st)
       else if negb (Ascii.eqb ext "255") && Ascii.eqb mode "n" then
         Ok (dar_name +:+ "_tex" +:+ dec (p_tex_count st) +:+ ".dar",
             p_mdl_count st, p_tex_count st + 1)
       else Ok ("cache_end", p_mdl_count st, p_tex_count st)) in
    Ok {| p_files := p_files st ++ [(name, mode, size)];
          p_mdl_count := mdl_count; p_tex_count := tex_count;
          p_dar_name := dar_name |}.

(** One turn of the loop; the flag says whether the loop goes on. *)
Definition read_record (table : gmap string string) (buf : BufReader.t)
    (st : parse_state) : result (bool * BufReader.t * parse_state) :=
  let* (name, buf) := BufReader.unpack fmt_H buf in
  let* (mode, buf) := BufReader.unpack fmt_B buf in
  let mode := chr (Z.to_nat mode) in
  let* (ext, buf) := BufReader.unpack fmt_B buf in
  let ext := chr (Z.to_nat ext) in
  let* (size, buf) := BufReader.unpack fmt_I buf in
  if Ascii.eqb mode "000" then Ok (false, buf, st)
  else
    let* st := record_entry table st name mode ext size in
    Ok (true, buf, st).

(** The [while True] loop, with a bound on its turns; [None] when the
    bound is reached. *)
Fixpoint read_records (fuel : nat) (table : gmap string string)
    (buf : BufReader.t) (st : parse_state)
    : option (result (BufReader.t * parse_state)) :=
  match fuel with
  | O => None
  | S fuel =>
      match read_record table buf st with
      | Raise e => Some (Raise e)
      | Ok (false, buf, st) => Some (Ok (buf, st))
      | Ok (true, buf, st) => read_records fuel table buf st
      end
  end.

(** The byte count [unpack_stage] reads for an entry: for a cache
    entry, the next entry's stored value less its own. *)
Definition entry_size (mode : ascii) (size : Z) (rest : list entry)
    : result Z :=
  if Ascii.eqb mode "c" then
    match rest with
    | (_, _, nextsize) :: _ => Ok (nextsize - size)%Z
    | [] => Raise IndexError
    end
  else Ok size.

(** The [for i in range(len(files))] loop of [unpack_stage]; the
    argument is [files[i:]] and [written] collects the files written. *)
Fixpoint extract (files : list entry) (buf : BufReader.t)
    (written : list (string * list Z)) : result (list (string * list Z)) :=
  match files with
  | [] => Ok written
  | (name, mode, size) :: rest =>
      if String.eqb name "cache_end"
      then extract rest (BufReader.align 2048 buf) written
      else
        let* size := entry_size mode size rest in
        let* (data, buf) := BufReader.read size buf in
        let buf :=
          if negb (Ascii.eqb mode "c") then BufReader.align 2048 buf
          else buf in
        extract rest buf (written ++ [(name, data)])
  end.

(** What follows the record loop in [unpack_stage]. *)
Definition unpack_payload (start : nat) (header : Z) (out : list string)
    (buf : BufReader.t) (files : list entry) : result unpacked :=
  let* buf := BufReader.seek (Z.of_nat start + header * 2048)%Z buf in
  let* config := write_stage_config files None [] in
  let* written := extract files buf [] in
  Ok {| u_config := config; u_written := written; u_warnings := out |}.

Definition unpack_stage_fuel (fuel : nat) (table : gmap string string)
    (buf : BufReader.t) : option (result unpacked) :=
  let start := BufReader.cur buf in
  match (let* (header, buf) := BufReader.unpack fmt_h buf in
         let* (total, buf) := BufReader.unpack fmt_h buf in
         Ok (header, buf)) with
  | Raise e => Some (Raise e)
  | Ok (header, buf) =>
      let out :=
        if negb (header =? 1)%Z
        then ["WARNING: file header size is " +:+ dec_Z (header * 2048)%Z
              +:+ ", expected 2048"]
        else [] in
      match read_records fuel table buf
              {| p_files := []; p_mdl_count := 1; p_tex_count := 1;
                 p_dar_name := "stg" |} with
      | None => None
      | Some (Raise e) => Some (Raise e)
      | Some (Ok (buf, st)) =>
          Some (unpack_payload start header out buf (p_files st))
      end
  end.

(** [unpack_stage]: no file lets the record loop turn more often than
    it has bytes. *)
Definition unpack_stage (table : gmap string string) (buf : BufReader.t)
    : option (result unpacked) :=
  unpack_stage_fuel (S (length (BufReader.file buf))) table buf.

(** *** unpack_dir *)







End Codec.

(** ** Vocabulary of the statements *)

(** The four directives of a config list, in their fixed order. *)
Inductive kind : Set := Resident | NoCache | Cache | Sound.

Definition kind_char (k : kind) : ascii :=
  match k with
  | Resident => "r"
  | NoCache => "n"
  | Cache => "c"
  | Sound => "s"
  end.


(** The directive a line of the config list stands for, if it is one. *)
Definition directive_of (line : string) : option kind :=
  let line := strip line in
  if String.eqb line ".resident" then Some Resident
  else if String.eqb line ".nocache" then Some NoCache
  else if String.eqb line ".cache" then Some Cache
  else if String.eqb line ".sound" then Some Sound
  else None.





(** What the assertions of [read_config] let through: the next state
    after directive [k] in state [section], if there is one. *)
Definition directive_step (section : option ascii) (k : kind)
    : option (option ascii) :=
  match k with
  | Resident =>
      if section_none section then Some (Some "r"%char) else None
  | NoCache =>
      if section_none section || section_is section "r"
      then Some (Some "n"%char) else None
  | Cache =>
      if section_is section "r" || section_is section "n"
      then Some (Some "c"%char) else None
  | Sound =>
      if section_is section "c" then Some (Some "s"%char) else None
  end.


(** An ASCII-only stand-in for the two runtime functions the program is
    parameterised by, for running it on ASCII names. *)
Fixpoint ascii_bytes (s : string) : option (list Z) :=
  match s with
  | EmptyString => Some []
  | String c s' =>
      if ord c <? 128 then
        match ascii_bytes s' with
        | Some bs => Some (Z.of_nat (ord c) :: bs)
        | None => None
        end
      else None
  end.

Definition ascii_islower (c : ascii) : bool :=
  (97 <=? ord c) && (ord c <=? 122).

(** An 8-byte header record: name code, section tag, extension tag and
    value. *)
Definition record : Type := Z * Z * Z * Z.

Definition encode_record (r : record) : list Z :=
  let '(code, tag, ext, value) := r in
  le_bytes 2 code ++ le_bytes 1 tag ++ le_bytes 1 ext ++ le_bytes 4 value.

Definition record_ok (r : record) : Prop :=
  let '(code, tag, ext, value) := r in
  (0 <= code < 65536)%Z /\ (0 <= tag < 256)%Z /\ (0 <= ext < 256)%Z
  /\ (0 <= value < 4294967296)%Z.

(** The number of zero bytes [align(2048)] writes or skips at [pos]. *)
Definition align_gap (pos : nat) : nat := ((pos + 2047) / 2048) * 2048 - pos.

(** The name of an entry's file in the stage directory. *)
Definition asset_name (f : stage_file) : string :=
  let '(name, ext, _, _) := f in name +:+ "." +:+ ext.

Section Layout.

Variable encode : string -> option (list Z).

(** The fields [pack_stage] gives the record of an entry. *)
Definition name_code (name ext : string) : Z :=
  if String.eqb ext "dar" then 0%Z
  else match strcode encode name with
       | Ok code => code
       | Raise _ => 0%Z
       end.

Definition section_tag (ext : string) (section : ascii) : ascii :=
  if String.eqb ext "bin" then "s"%char else section.

Definition ext_tag (ext : string) : Z :=
  match ext with
  | String c _ => Z.of_nat (ord c)
  | EmptyString => 0%Z
  end.

Definition trailer (cache_size : nat) : record :=
  (0%Z, Z.of_nat (ord "c"), 255%Z, Z.of_nat cache_size).

(** The records [pack_records] writes for [files] when the running
    cache offset stands at [cache_size]. *)
Fixpoint records (files : list stage_file) (cache_size : nat) : list record :=
  match files with
  | [] => []
  | (name, ext, section, size) :: rest =>
      let head value :=
        (name_code name ext, Z.of_nat (ord (section_tag ext section)),
         ext_tag ext, Z.of_nat value) in
      if Ascii.eqb section "c" then
        head cache_size ::
        (if run_ends rest then [trailer (cache_size + size)] else [])
        ++ records rest (cache_size + size)
      else head size :: records rest cache_size
  end.

Definition head_record (f : stage_file) (value : nat) : record :=
  let '(name, ext, section, _) := f in
  (name_code name ext, Z.of_nat (ord (section_tag ext section)),
   ext_tag ext, Z.of_nat value).

(** The records of the members of a cache run, the trailer apart. *)
Fixpoint member_records (run : list stage_file) (cache_size : nat) : list record :=
  match run with
  | [] => []
  | f :: rest => head_record f cache_size :: member_records rest (cache_size + f.2)
  end.

Definition is_cache (f : stage_file) : Prop := f.1.2 = "c"%char.

(** The content of the entries as [pack_payload] lays it out from
    position [pos]. *)
Fixpoint payload (dir : gmap string (list Z)) (files : list stage_file)
    (pos : nat) : list Z :=
  match files with
  | [] => []
  | (name, ext, section, size) :: rest =>
      let content := default [] (dir !! (name +:+ "." +:+ ext)) in
      let pos := pos + length content in
      let gap :=
        if negb (Ascii.eqb section "c") || run_ends rest
        then align_gap pos else 0 in
      content ++ replicate gap 0%Z ++ payload dir rest (pos + gap)
  end.

(** The bytes of one stage as [pack_stage] leaves them when it starts
    at position [start]. *)
Definition stage_image (dir : gmap string (list Z)) (files : list stage_file)
    (start : nat) : list Z :=
  let recs := flat_map encode_record (records files 0) in
  let p1 := start + 4 + length recs in
  let p2 := p1 + align_gap p1 in
  let pay := payload dir files p2 in
  let total := p2 + length pay in
  let header := ((4 + length files * 8 + 2047) / 2048) * 2048 in
  le_bytes 2 (Z.of_nat (header / 2048))
  ++ le_bytes 2 (Z.of_nat ((total - start) / 2048))
  ++ recs ++ replicate (align_gap p1) 0%Z ++ pay.

End Layout.

(** The index, among the records of [files], of the record of
    [files[i]]: every entry before it has one record, and one more where
    a cache run ends. *)
Fixpoint record_index (files : list stage_file) (i : nat) : nat :=
  match i, files with
  | S i, (_, _, section, _) :: rest =>
      (if Ascii.eqb section "c" && run_ends rest then 2 else 1)
      + record_index rest i
  | _, _ => 0
  end.



(** The entry [unpack_stage] makes of a record once it has resolved the
    name. *)
Definition entry_of_record (name : string) (r : record) : entry :=
  let '(_, tag, _, value) := r in (name, chr (Z.to_nat tag), value).


(** The names of a regenerated config list with the section each is
    listed under: [write_stage_config] leaves the trailers out and moves
    every name holding [".bin"] to NoCache. *)
Fixpoint listed (files : list entry) : list (string * ascii) :=
  match files with
  | [] => []
  | (name, mode, _) :: rest =>
      if String.eqb name "cache_end" then listed rest
      else (name, if contains ".bin" name then "n"%char else mode)
           :: listed rest
  end.

(** A config list for [names], each with its section: a directive line
    wherever the section differs from the one before, then the name. *)
Fixpoint render (section : option ascii) (names : list (string * ascii))
    : list string :=
  match names with
  | [] => []
  | (name, mode) :: rest =>
      (if section_is section mode then [] else [directive mode])
      ++ (name +:+ nl) :: render (Some mode) rest
  end.

Section Parsing.

Variable islower : ascii -> bool.

(** The record loop of [unpack_stage] on records already cut out of
    the buffer. *)
Fixpoint parse_records (table : gmap string string) (st : parse_state)
    (recs : list record) : result parse_state :=
  match recs with
  | [] => Ok st
  | (code, tag, ext, value) :: rest =>
      let* st := record_entry islower table st code (chr (Z.to_nat tag))
                   (chr (Z.to_nat ext)) value in
      parse_records table st rest
  end.

End Parsing.

(** The reader has [s] before it: the bytes from its position on. *)
Definition at_suffix (b : BufReader.t) (s : list Z) : Prop :=
  drop (BufReader.pos b) (BufReader.file b) = s.

(** The reader [n] bytes further on. *)
Definition advance (b : BufReader.t) (n : nat) : BufReader.t :=
  BufReader.mk (BufReader.file b) (BufReader.pos b + n).

(** One of the four section letters. *)
Definition is_section (c : ascii) : Prop :=
  c = "r"%char \/ c = "n"%char \/ c = "c"%char \/ c = "s"%char.

(** The state the record loop of [unpack_stage] starts from. *)
Definition parse_start : parse_state :=
  {| p_files := []; p_mdl_count := 1; p_tex_count := 1; p_dar_name := "stg" |}.

(** ** Examples *)

(** The dictionary key of a file name, as [unpack_stage] forms it. *)
Definition dict_key (name ext : string) : string :=
  hex4 (Z.to_nat (name_code ascii_bytes name ext)) +:+ "."
  +:+ String (chr (Z.to_nat (ext_tag ext))) EmptyString.

(** A stage with every kind of entry: a model, a sound bank, a cache run
    of 10, 20 and 30 bytes, and a sound. *)
Definition demo_stage : stage_dir :=
  {| data_cnf :=
       [".resident" +:+ nl; "m.dar" +:+ nl;
        ".nocache" +:+ nl; "v.bin" +:+ nl;
        ".cache" +:+ nl; "a.tex" +:+ nl; "b.tex" +:+ nl; "c.tex" +:+ nl;
        ".sound" +:+ nl; "s.wav" +:+ nl];
     assets :=
       {[ "m.dar" := [1; 2; 3]%Z;
          "v.bin" := [4; 5]%Z;
          "a.tex" := replicate 10 6%Z;
          "b.tex" := replicate 20 7%Z;
          "c.tex" := replicate 30 8%Z;
          "s.wav" := [9]%Z ]} |}.

Definition demo_table : gmap string string :=
  {[ dict_key "v" "bin" := "v.bin";
     dict_key "a" "tex" := "a.tex";
     dict_key "b" "tex" := "b.tex";
     dict_key "c" "tex" := "c.tex";
     dict_key "s" "wav" := "s.wav" ]}.

Definition demo_files : list stage_file :=
  [("m", "dar", "r"%char, 3); ("v", "bin", "n"%char, 2);
   ("a", "tex", "c"%char, 10); ("b", "tex", "c"%char, 20);
   ("c", "tex", "c"%char, 30); ("s", "wav", "s"%char, 1)].






(** 255 entries in one cache run: 256 records with the trailer. *)
Definition full_header_stage : stage_dir :=
  {| data_cnf :=
       (".nocache" +:+ nl) :: (".cache" +:+ nl)
       :: replicate 255 ("a.tex" +:+ nl);
     assets := {[ "a.tex" := [7%Z] ]} |}.


Definition tex_table : gmap string string :=
  {[ dict_key "a" "tex" := "a.tex" ]}.

(** A writer on a fresh file, at position 0. *)
Definition fresh : BufWriter.t := BufWriter.mk [] 0.



(** The demo stage packed into a fresh file, and the entries the record
    loop of [unpack_stage] reads back from it. *)
Definition demo_packed : BufWriter.t :=
  match pack_stage ascii_bytes demo_stage fresh with
  | Ok (_, buf, _) => buf
  | Raise _ => fresh
  end.

Definition demo_parsed : parse_state :=
  match read_records ascii_islower (S (length (BufWriter.file demo_packed)))
          demo_table (BufReader.mk (BufWriter.file demo_packed) 4)
          parse_start with
  | Some (Ok (_, st)) => st
  | _ => parse_start
  end.

(** The buffer [pack_dir] hands to its stage loop when the list has [n]
    stages: the table size is written and the position is past the
    table, on a sector boundary. *)
Definition container_start (n : nat) : BufWriter.t :=
  BufWriter.seek (((n * 12 + 2047) / 2048) * 2048)
    (BufWriter.write (le_bytes 4 (Z.of_nat (n * 12))) (BufWriter.mk [] 0)).

(** The bytes [write_table] writes. *)
Fixpoint table_bytes (sizes : list (string * nat)) (off : nat) : list Z :=
  match sizes with
  | [] => []
  | (stage, size) :: sizes =>
      struct_pack_8s (match encode_ascii stage with
                      | Ok name => name
                      | Raise _ => []
                      end)
      ++ le_bytes 4 (Z.of_nat off)
      ++ table_bytes sizes (off + (size + 2047) / 2048)
  end.


(** A stage with no entry, and a world that holds it under the name
    ["S"]. *)
Definition empty_stage : stage_dir := {| data_cnf := []; assets := ∅ |}.

Definition empty_world : gmap string stage_dir := {[ "S" := empty_stage ]}.

(** ** Vocabulary of the round trip *)





Section RoundTrip.

Variable encode : string -> option (list Z).
Variable islower : ascii -> bool.
Variable table : gmap string string.


End RoundTrip.



(** ** Vocabulary of the further properties *)

(** The lines of a config list that are not directives, stripped as
    [read_config] strips them. *)
Definition asset_lines (lines : list string) : list string :=
  map strip
    (List.filter (fun l => match directive_of l with
                           | None => true
                           | Some _ => false
                           end) lines).

(** The place of a section letter in the fixed order of the directives. *)
Definition section_rank (c : ascii) : nat :=
  if Ascii.eqb c "r" then 0
  else if Ascii.eqb c "n" then 1
  else if Ascii.eqb c "c" then 2
  else 3.

(** The number of cache runs among [files]: the entries of section
    Cache that no entry of section Cache follows. *)
Fixpoint cache_runs (files : list stage_file) : nat :=
  match files with
  | [] => 0
  | (_, _, section, _) :: rest =>
      (if Ascii.eqb section "c" && run_ends rest then 1 else 0)
      + cache_runs rest
  end.

(** The sectors the stages of [sizes] take in the table's count. *)
Definition sectors (sizes : list (string * nat)) : nat :=
  foldr (fun s acc => (s.2 + 2047) / 2048 + acc) 0 sizes.

(** The first [n] characters of a string. *)
Fixpoint prefix_of (n : nat) (s : string) : string :=
  match n, s with
  | S n, String c s' => String c (prefix_of n s')
  | _, _ => EmptyString
  end.

(** The entries of [files] that [unpack_stage] takes for a file of
    their own: all but those named "cache_end". *)
Definition extracted (files : list entry) : list entry :=
  List.filter (fun e : entry => negb (String.eqb e.1.1 "cache_end")) files.

(** No number is smaller than the one before it. *)
Fixpoint nondecreasing (l : list nat) : bool :=
  match l with
  | a :: ((b :: _) as rest) => (a <=? b) && nondecreasing rest
  | _ => true
  end.

(** * Properties *)

(** ** The name checksum *)

Lemma land_16_range (x : Z) : (0 <= Z.land x 65535 < 65536)%Z.
Proof.
  change 65535%Z with (Z.ones 16). rewrite Z.land_ones by lia.
  apply Z.mod_pos_bound. lia.
Qed.

Lemma strcode_fold (bs : list Z) (acc : Z) :
  fold_left strcode_step bs acc = checksum_from acc bs.
Proof.
  revert acc. induction bs as [|b bs IH]; intros acc; simpl.
  - reflexivity.
  - rewrite IH. reflexivity.
Qed.

Lemma checksum_from_range (bs : list Z) (acc : Z) :
  (0 <= acc < 65536)%Z -> (0 <= checksum_from acc bs < 65536)%Z.
Proof.
  revert acc. induction bs as [|b bs IH]; intros acc Hacc; simpl.
  - exact Hacc.
  - apply IH. apply land_16_range.
Qed.

Lemma strcode_range encode (s : string) (c : Z) :
  strcode encode s = Ok c -> (0 <= c < 65536)%Z.
Proof.
  unfold strcode. destruct (encode s) as [bs|]; [|discriminate].
  intros [= <-]. rewrite strcode_fold. apply checksum_from_range. lia.
Qed.

(** C7.  [strcode] is the checksum of the specification: on the bytes of
    the name's EUC-JP encoding it folds, from 0, a rotation of the
    accumulator by five bits within sixteen followed by the addition of
    the byte modulo 65536.  It is a function of the name alone, and its
    value fits sixteen bits.  Where the name has no encoding, [strcode]
    raises as [encode] does. *)
Theorem strcode_is_checksum (encode : string -> option (list Z)) (s : string) :
  strcode encode s =
    match encode s with
    | Some bs => Ok (checksum_spec bs)
    | None => Raise UnicodeEncodeError
    end
  /\ match strcode encode s with
     | Ok c => (0 <= c < 65536)%Z
     | Raise e => e = UnicodeEncodeError
     end.
Proof.
  split.
  - unfold strcode, checksum_spec. destruct (encode s); [|reflexivity].
    now rewrite strcode_fold.
  - destruct (strcode encode s) as [c|e] eqn:E.
    + eapply strcode_range; eauto.
    + unfold strcode in E. destruct (encode s); congruence.
Qed.

(** ** The config list *)

Lemma read_config_directive dir line lines section files k :
  directive_of line = Some k ->
  read_config dir (line :: lines) section files =
    match directive_step section k with
    | Some section' => read_config dir lines section' files
    | None => Raise AssertionError
    end.
Proof.
  unfold directive_of. simpl.
  destruct (String.eqb (strip line) ".resident") eqn:E1.
  { intros [= <-]. simpl. now destruct (section_none section). }
  destruct (String.eqb (strip line) ".nocache") eqn:E2.
  { intros [= <-]. simpl.
    now destruct (section_none section || section_is section "r"). }
  destruct (String.eqb (strip line) ".cache") eqn:E3.
  { intros [= <-]. simpl.
    now destruct (section_is section "r" || section_is section "n"). }
  destruct (String.eqb (strip line) ".sound") eqn:E4.
  { intros [= <-]. simpl. now destruct (section_is section "c"). }
  discriminate.
Qed.

Lemma read_config_asset dir line lines section files :
  directive_of line = None ->
  read_config dir (line :: lines) section files =
    match section with
    | None => Raise AssertionError
    | Some sec =>
        match split "." (strip line) with
        | [name; ext] =>
            match dir !! strip line with
            | None => Raise OSError
            | Some content =>
                read_config dir lines section
                  (files ++ [(name, ext, sec, length content)])
            end
        | _ => Raise ValueError
        end
    end.
Proof.
  unfold directive_of. simpl.
  destruct (String.eqb (strip line) ".resident"); [discriminate|].
  destruct (String.eqb (strip line) ".nocache"); [discriminate|].
  destruct (String.eqb (strip line) ".cache"); [discriminate|].
  destruct (String.eqb (strip line) ".sound"); [discriminate|].
  reflexivity.
Qed.






(** ** Files and the writer *)

Lemma length_le_bytes n v : length (le_bytes n v) = n.
Proof. revert v. induction n; intros v; simpl; [reflexivity|now rewrite IHn]. Qed.

Lemma length_encode_record r : length (encode_record r) = 8.
Proof.
  destruct r as [[[code tag] ext] value]. unfold encode_record.
  rewrite !length_app, !length_le_bytes. reflexivity.
Qed.

Lemma length_flat_map_records (rs : list record) :
  length (flat_map encode_record rs) = 8 * length rs.
Proof.
  induction rs as [|r rs IH]; simpl; [reflexivity|].
  rewrite length_app, length_encode_record, IH. lia.
Qed.

Lemma file_write_nil data pos : file_write data pos [] = data.
Proof. reflexivity. Qed.

Lemma file_write_cons data pos b bs :
  file_write data pos (b :: bs) =
    resize pos 0%Z data ++ (b :: bs) ++ drop (pos + length (b :: bs)) data.
Proof. reflexivity. Qed.

Lemma file_write_unfold data pos bs :
  bs <> [] ->
  file_write data pos bs = resize pos 0%Z data ++ bs ++ drop (pos + length bs) data.
Proof. destruct bs; [congruence|reflexivity]. Qed.

(** Two writes one after the other are one write of both. *)
Lemma file_write_app data pos b1 b2 :
  file_write (file_write data pos b1) (pos + length b1) b2
  = file_write data pos (b1 ++ b2).
Proof.
  destruct b1 as [|x b1].
  { simpl. now rewrite Nat.add_0_r. }
  destruct b2 as [|y b2].
  { simpl. now rewrite app_nil_r. }
  rewrite (file_write_unfold data pos (x :: b1)) by discriminate.
  rewrite (file_write_unfold _ _ (y :: b2)) by discriminate.
  rewrite (file_write_unfold data pos ((x :: b1) ++ y :: b2)) by discriminate.
  generalize (x :: b1) as B1. generalize (y :: b2) as B2. intros B2 B1.
  assert (HR : length (resize pos 0%Z data) = pos) by apply length_resize.
  rewrite (app_assoc (resize pos 0%Z data) B1).
  rewrite resize_app_le by (rewrite length_app, HR; lia).
  rewrite resize_all_alt by (rewrite length_app, HR; lia).
  rewrite drop_app_ge by (rewrite length_app, HR; lia).
  rewrite drop_drop, length_app, HR, <- !app_assoc, length_app.
  do 4 f_equal. lia.
Qed.

(** A write just before an earlier write joins it. *)
Lemma file_write_front data pos h body :
  file_write (file_write data (pos + length h) body) pos h
  = file_write data pos (h ++ body).
Proof.
  destruct h as [|x h].
  { simpl. now rewrite Nat.add_0_r. }
  destruct body as [|y body].
  { simpl. now rewrite app_nil_r. }
  rewrite (file_write_unfold data _ (y :: body)) by discriminate.
  rewrite (file_write_unfold _ pos (x :: h)) by discriminate.
  rewrite (file_write_unfold data pos ((x :: h) ++ y :: body)) by discriminate.
  generalize (x :: h) as H. generalize (y :: body) as B. intros B H.
  assert (HR : length (resize (pos + length H) 0%Z data) = pos + length H)
    by apply length_resize.
  rewrite resize_app_le by lia.
  rewrite resize_resize by lia.
  rewrite drop_app_ge by lia.
  rewrite HR, Nat.sub_diag, drop_0, <- !app_assoc, length_app.
  do 4 f_equal. lia.
Qed.

Lemma drop_file_write data pos bs :
  drop pos (file_write data pos bs) = bs ++ drop (pos + length bs) data.
Proof.
  destruct bs as [|b bs].
  { simpl. now rewrite Nat.add_0_r. }
  rewrite file_write_unfold by discriminate.
  rewrite drop_app_length'; [reflexivity|]. now rewrite length_resize.
Qed.



Module BufWriterFacts.
Import BufWriter.

Lemma write_write b1 b2 buf :
  write b2 (write b1 buf) = write (b1 ++ b2) buf.
Proof.
  unfold write; simpl. rewrite file_write_app, length_app.
  f_equal. lia.
Qed.

Lemma write_nil buf : write [] buf = buf.
Proof. destruct buf. unfold write; simpl. now rewrite Nat.add_0_r. Qed.

Lemma pos_write bs buf : pos (write bs buf) = pos buf + length bs.
Proof. reflexivity. Qed.

Lemma align_write buf :
  align 2048 buf = write (replicate (align_gap (pos buf)) 0%Z) buf.
Proof. reflexivity. Qed.

Lemma pack_inv f v buf buf' :
  pack f v buf = Ok buf' ->
  buf' = write (le_bytes (calcsize f) v) buf
  /\ (fmt_min f <= v <= fmt_max f)%Z.
Proof.
  unfold pack, struct_pack.
  destruct ((fmt_min f <=? v)%Z && (v <=? fmt_max f)%Z) eqn:E; simpl;
    [|discriminate].
  intros [= <-]. split; [reflexivity|].
  apply andb_true_iff in E. lia.
Qed.

Lemma pack_ok f v buf :
  (fmt_min f <= v <= fmt_max f)%Z ->
  pack f v buf = Ok (write (le_bytes (calcsize f) v) buf).
Proof.
  intros H. unfold pack, struct_pack.
  replace ((fmt_min f <=? v)%Z && (v <=? fmt_max f)%Z) with true; [reflexivity|].
  symmetry. apply andb_true_iff. lia.
Qed.

End BufWriterFacts.

(** ** Sector arithmetic *)


Lemma align_gap_aligned pos : pos mod 2048 = 0 -> align_gap pos = 0.
Proof.
  intros H. unfold align_gap.
  pose proof (Nat.div_mod_eq pos 2048) as Hp. rewrite H in Hp.
  replace (pos + 2047) with (2047 + pos / 2048 * 2048) by lia.
  rewrite Nat.div_add by lia. simpl (2047 / 2048). lia.
Qed.

Lemma align_gap_add start n :
  start mod 2048 = 0 -> align_gap (start + n) = align_gap n.
Proof.
  intros H. unfold align_gap.
  pose proof (Nat.div_mod_eq start 2048) as Hp. rewrite H in Hp.
  replace (start + n + 2047) with (n + 2047 + start / 2048 * 2048) by lia.
  rewrite Nat.div_add by lia. lia.
Qed.

Lemma mod_2048_add a b :
  a mod 2048 = 0 -> b mod 2048 = 0 -> (a + b) mod 2048 = 0.
Proof.
  intros Ha Hb. rewrite Nat.Div0.add_mod, Ha, Hb. reflexivity.
Qed.

(** ** What pack_stage writes *)

Ltac bind_inv H :=
  match type of H with
  | bind ?m _ = Ok _ =>
      let E := fresh "E" in
      destruct m eqn:E; cbn [bind] in H; [|discriminate H]
  end.

Local Opaque Nat.div Nat.modulo.

Section PackFacts.

Variable encode : string -> option (list Z).

Import BufWriter BufWriterFacts.

Lemma run_ends_false_head name ext section size rest :
  run_ends ((name, ext, section, size) :: rest) = false ->
  Ascii.eqb section "c" = true.
Proof. simpl. now destruct (Ascii.eqb section "c"). Qed.

(** The record loop writes the records of [records], one after the
    other, and every field it wrote fits its width. *)
Lemma pack_records_spec files in_cache cache_size buf buf' :
  (in_cache = true -> run_ends files = false) ->
  pack_records encode files in_cache cache_size buf = Ok buf' ->
  buf' = write (flat_map encode_record (records encode files cache_size)) buf
  /\ Forall record_ok (records encode files cache_size).
Proof.
  revert in_cache cache_size buf.
  induction files as [|[[[name ext] section] size] rest IH];
    intros in_cache cache_size buf Hinv H.
  { simpl in *. injection H as <-. now rewrite write_nil. }
  assert (Hic : (if negb in_cache && Ascii.eqb section "c" then true
                 else in_cache) = Ascii.eqb section "c").
  { destruct in_cache.
    - rewrite (run_ends_false_head _ _ _ _ _ (Hinv eq_refl)). reflexivity.
    - simpl. now destruct (Ascii.eqb section "c"). }
  cbn [pack_records] in H. rewrite Hic in H. clear Hic Hinv.
  (* the name code *)
  bind_inv H.
  assert (Hc : a = write (le_bytes 2 (name_code encode name ext)) buf
               /\ (0 <= name_code encode name ext < 65536)%Z).
  { unfold name_code. destruct (String.eqb ext "dar").
    - apply pack_inv in E as [-> ?]. split; [reflexivity|lia].
    - destruct (strcode encode name) as [code|] eqn:Ec; [|discriminate].
      cbn [bind] in E. apply pack_inv in E as [-> HR]. split; [reflexivity|].
      cbn in HR. lia. }
  destruct Hc as [-> Hcode]. clear E.
  (* the section tag *)
  bind_inv H.
  assert (Ht : a = write (le_bytes 1 (Z.of_nat (ord (section_tag ext section))))
                     (write (le_bytes 2 (name_code encode name ext)) buf)
               /\ (0 <= Z.of_nat (ord (section_tag ext section)) < 256)%Z).
  { unfold section_tag. destruct (String.eqb ext "bin");
      apply pack_inv in E as [-> HR]; (split; [reflexivity|cbn in HR; lia]). }
  destruct Ht as [-> Htag]. clear E.
  (* the extension tag *)
  bind_inv H. rename a into ext0.
  assert (He : ext_tag ext = Z.of_nat (ord ext0)).
  { destruct ext; [discriminate|]. now injection E as ->. }
  clear E. bind_inv H. apply pack_inv in E as [-> Hext]. cbn in Hext.
  rewrite <- He in *. clear He ext0.
  (* the value *)
  bind_inv H. destruct a as [buf1 cache_size'].
  destruct (Ascii.eqb section "c") eqn:Esec.
  - bind_inv E. apply pack_inv in E0 as [-> Hval]. cbn in Hval.
    injection E as <- <-.
    rewrite !write_write in H. cbn [andb] in H.
    cbn [records]. rewrite Esec.
    destruct (run_ends rest) eqn:Eends.
    + bind_inv H. apply pack_inv in E as [-> _].
      bind_inv H. apply pack_inv in E as [-> _].
      bind_inv H. apply pack_inv in E as [-> _].
      bind_inv H. apply pack_inv in E as [-> Htr]. cbn in Htr.
      apply IH in H as [-> Hrest]; [|discriminate].
      rewrite !write_write. split.
      * f_equal; cbn; rewrite <- ?app_assoc; reflexivity.
      * constructor; [|constructor]; [| |exact Hrest];
          cbn; repeat split; try lia.
    + apply IH in H as [-> Hrest]; [|auto].
      rewrite !write_write. split.
      * f_equal; cbn; rewrite <- ?app_assoc; reflexivity.
      * constructor; [|exact Hrest]. cbn; repeat split; lia.
  - bind_inv E. apply pack_inv in E0 as [-> Hval]. cbn in Hval.
    injection E as <- <-.
    rewrite !write_write in H. cbn [andb] in H.
    cbn [records]. rewrite Esec.
    apply IH in H as [-> Hrest]; [|discriminate].
    rewrite !write_write. split.
    + f_equal; cbn; rewrite <- ?app_assoc; reflexivity.
    + constructor; [|exact Hrest]. cbn; repeat split; lia.
Qed.

(** The payload loop writes the content of every entry as [payload]
    lays it out, and found every file. *)
Lemma pack_payload_spec dir files buf buf' :
  pack_payload dir files buf = Ok buf' ->
  buf' = write (payload dir files (pos buf)) buf
  /\ Forall (fun f => is_Some (dir !! asset_name f)) files.
Proof.
  revert buf. induction files as [|[[[name ext] section] size] rest IH];
    intros buf H.
  { simpl in *. injection H as <-. now rewrite write_nil. }
  cbn [pack_payload] in H.
  destruct (dir !! (name +:+ "." +:+ ext)) as [content|] eqn:Ed;
    [|discriminate].
  apply IH in H as [-> Hrest]. split.
  - cbn [payload]. rewrite Ed. cbn [default].
    assert (Hal : forall b : t,
               align 2048 (write content b)
               = write (content ++ replicate (align_gap (pos b + length content)) 0%Z) b).
    { intros b. now rewrite align_write, write_write, pos_write. }
    destruct (Ascii.eqb section "c"); cbn [negb orb].
    + destruct (run_ends rest).
      * rewrite Hal, write_write, pos_write, length_app, length_replicate.
        rewrite Nat.add_assoc, <- app_assoc. reflexivity.
      * rewrite write_write, pos_write. cbn [replicate app].
        rewrite Nat.add_0_r. reflexivity.
    + rewrite Hal, write_write, pos_write, length_app, length_replicate.
      rewrite Nat.add_assoc, <- app_assoc. reflexivity.
  - constructor; [|exact Hrest]. cbn. rewrite Ed. eauto.
Qed.

(** [pack_stage] writes [stage_image] at the position it starts from
    and returns its length. *)
Lemma pack_stage_spec stage buf size buf' out :
  pack_stage encode stage buf = Ok (size, buf', out) ->
  exists files,
    read_config (assets stage) (data_cnf stage) None [] = Ok files
    /\ file buf' = file_write (file buf) (pos buf)
                     (stage_image encode (assets stage) files (pos buf))
    /\ pos buf' = pos buf + size
    /\ size = length (stage_image encode (assets stage) files (pos buf))
    /\ Forall record_ok (records encode files 0)
    /\ Forall (fun f => is_Some (assets stage !! asset_name f)) files
    /\ out = (if 255 <? length files
              then ["WARNING: file header size is "
                    +:+ dec ((4 + length files * 8 + 2047) / 2048 * 2048)
                    +:+ ", expected 2048"]
              else [])
    /\ (Z.of_nat ((4 + length files * 8 + 2047) / 2048 * 2048 / 2048)
        <= 32767)%Z
    /\ (Z.of_nat (size / 2048) <= 32767)%Z.
Proof.
  unfold pack_stage. intros H. cbv zeta in H. unfold cur in *.
  remember (pos buf) as start eqn:Hstart.
  bind_inv H. rename a into files. exists files. split; [reflexivity|].
  bind_inv H. rename a into b1.
  apply pack_records_spec in E0 as [Hb1 Hrec]; [|discriminate].
  remember (align 2048 b1) as b2 eqn:Hb2.
  bind_inv H. rename a into b3. apply pack_payload_spec in E0 as [Hb3 Hpay].
  remember (pos b3) as total eqn:Htotal.
  bind_inv H. rename a into b4. apply pack_inv in E0 as [Hb4 Hh1].
  bind_inv H. rename a into b5. apply pack_inv in E0 as [Hb5 Hh2].
  set (recs := flat_map encode_record (records encode files 0)) in *.
  rewrite align_write in Hb2.
  remember (pos b1) as q1 eqn:Hp1. remember (pos b2) as q2 eqn:Hp2.
  assert (Hq1 : q1 = start + 4 + length recs) by (now rewrite Hp1, Hb1).
  assert (Hq2 : q2 = q1 + align_gap q1).
  { rewrite Hp2, Hb2, pos_write, length_replicate. congruence. }
  assert (Hp3 : total = q2 + length (payload (assets stage) files q2)).
  { rewrite Htotal, Hb3, pos_write. congruence. }
  assert (Hbody : b3 = write (recs ++ replicate (align_gap q1) 0%Z
                              ++ payload (assets stage) files q2)
                         (seek (start + 4) buf)).
  { rewrite Hb3, Hb2, Hb1, !write_write. reflexivity. }
  assert (Himg : stage_image encode (assets stage) files start =
    (le_bytes 2 (Z.of_nat ((4 + length files * 8 + 2047) / 2048 * 2048 / 2048))
     ++ le_bytes 2 (Z.of_nat ((total - start) / 2048)))
    ++ recs ++ replicate (align_gap q1) 0%Z
    ++ payload (assets stage) files q2).
  { unfold stage_image. fold recs. rewrite Hp3, Hq2, Hq1, <- !app_assoc.
    reflexivity. }
  assert (Hlen : length (stage_image encode (assets stage) files start)
                 = total - start).
  { rewrite Himg, !length_app, !length_le_bytes, length_replicate. lia. }
  assert (Hsz : size = total - start) by congruence.
  assert (Hbuf : buf' = seek total b5) by congruence.
  assert (Hout : out = (if 255 <? length files
              then ["WARNING: file header size is "
                    +:+ dec ((4 + length files * 8 + 2047) / 2048 * 2048)
                    +:+ ", expected 2048"]
              else [])) by congruence.
  clear H. cbn [calcsize] in *.
  repeat split.
  - rewrite Hbuf, Hb5, Hb4, write_write. cbn [file seek write pos].
    rewrite Hbody. cbn [file seek write pos].
    replace (start + 4) with
      (start + length
         (le_bytes 2 (Z.of_nat ((4 + length files * 8 + 2047) / 2048 * 2048 / 2048))
          ++ le_bytes 2 (Z.of_nat ((total - start) / 2048))))
      by (rewrite length_app, !length_le_bytes; lia).
    rewrite file_write_front, Himg. reflexivity.
  - rewrite Hbuf. cbn [pos seek]. lia.
  - congruence.
  - exact Hrec.
  - exact Hpay.
  - exact Hout.
  - exact (proj2 Hh1).
  - rewrite Hsz. exact (proj2 Hh2).
Qed.

End PackFacts.

(** ** The records of a stage *)

Section RecordFacts.

Variable encode : string -> option (list Z).





Lemma member_records_tags run cache_size :
  Forall is_cache run ->
  Forall (fun f : stage_file => f.1.1.2 <> "bin") run ->
  Forall (fun r : record => r.1.1.2 = Z.of_nat (ord "c"))
    (member_records encode run cache_size).
Proof.
  revert cache_size.
  induction run as [|[[[name ext] section] size] run IH];
    intros cache_size Hc Hb; [constructor|].
  inversion Hc as [|? ? Hc1 Hc2]; inversion Hb as [|? ? Hb1 Hb2]; subst.
  unfold is_cache in Hc1. simpl in Hc1, Hb1. subst section.
  cbn [member_records]. constructor; [|now apply IH].
  cbn. unfold section_tag.
  destruct (String.eqb_spec ext "bin"); [congruence|reflexivity].
Qed.

Lemma length_member_records run cache_size :
  length (member_records encode run cache_size) = length run.
Proof.
  revert cache_size. induction run as [|f run IH]; intros; simpl;
    [reflexivity|now rewrite IH].
Qed.

(** The record of [files[i]] sits at [record_index files i] and holds
    the entry's name code, its tag and the first letter of its
    extension. *)
Lemma records_lookup files i name ext section size cache_size :
  files !! i = Some (name, ext, section, size) ->
  exists value,
    records encode files cache_size !! record_index files i
    = Some (name_code encode name ext,
            Z.of_nat (ord (section_tag ext section)), ext_tag ext, value).
Proof.
  revert i cache_size.
  induction files as [|[[[name' ext'] section'] size'] rest IH];
    intros i cache_size H; [discriminate|].
  destruct i as [|i].
  - injection H as -> -> -> ->. cbn [record_index records].
    destruct (Ascii.eqb section "c"); eexists; reflexivity.
  - cbn in H. cbn [record_index records].
    destruct (Ascii.eqb section' "c").
    + destruct (run_ends rest); cbn [andb app].
      * destruct (IH i (cache_size + size') H) as [v Hv]. exists v. exact Hv.
      * destruct (IH i (cache_size + size') H) as [v Hv]. exists v. exact Hv.
    + destruct (IH i cache_size H) as [v Hv]. exists v. exact Hv.
Qed.

Lemma length_records_ge files cache_size :
  length files <= length (records encode files cache_size).
Proof.
  revert cache_size.
  induction files as [|[[[name ext] section] size] rest IH]; intros cache_size.
  - reflexivity.
  - cbn [records]. destruct (Ascii.eqb section "c").
    + cbn [length]. rewrite length_app.
      specialize (IH (cache_size + size)). lia.
    + cbn [length]. specialize (IH cache_size). lia.
Qed.

End RecordFacts.

Lemma lookup_flat_map_records (rs : list record) j code tag ext value :
  rs !! j = Some (code, tag, ext, value) ->
  (0 <= tag < 256)%Z ->
  flat_map encode_record rs !! (8 * j + 2) = Some tag.
Proof.
  revert j. induction rs as [|r rs IH]; intros j H Ht; [discriminate|].
  destruct j as [|j].
  - injection H as ->. cbn [flat_map]. rewrite lookup_app_l
      by (rewrite length_encode_record; lia).
    cbn. f_equal. rewrite Z.mod_small by lia. reflexivity.
  - cbn in H. cbn [flat_map].
    rewrite lookup_app_r by (rewrite length_encode_record; lia).
    rewrite length_encode_record.
    replace (8 * S j + 2 - 8) with (8 * j + 2) by lia. now apply IH.
Qed.

(** ** The reader *)

Lemma le_value_le_bytes n v :
  le_value (le_bytes n v) = (v mod 256 ^ Z.of_nat n)%Z.
Proof.
  revert v. induction n as [|n IH]; intros v.
  - simpl. now rewrite Z.mod_1_r.
  - cbn [le_bytes le_value]. rewrite IH.
    rewrite Nat2Z.inj_succ, Z.pow_succ_r by lia.
    rewrite Z.rem_mul_r by lia. lia.
Qed.

Lemma struct_unpack_pack f v :
  (fmt_min f <= v <= fmt_max f)%Z ->
  struct_unpack f (le_bytes (calcsize f) v) = Ok v.
Proof.
  intros H. unfold struct_unpack.
  rewrite length_le_bytes, Nat.eqb_refl, le_value_le_bytes.
  destruct f; cbn in *.
  - now rewrite Z.mod_small by lia.
  - now rewrite Z.mod_small by lia.
  - now rewrite Z.mod_small by lia.
  - change (256 ^ Z.of_nat 2)%Z with 65536%Z.
    destruct (Z.ltb_spec (v mod 65536) 32768) as [Hlt|Hge]; f_equal;
      Z.div_mod_to_equations; lia.
Qed.

Module BufReaderFacts.
Import BufReader.

Lemma at_suffix_advance b bs rest :
  at_suffix b (bs ++ rest) -> at_suffix (advance b (length bs)) rest.
Proof.
  unfold at_suffix, advance. cbn [pos file]. intros H.
  rewrite <- drop_drop, H. apply drop_app_length.
Qed.


Lemma advance_advance b n m : advance (advance b n) m = advance b (n + m).
Proof. unfold advance. cbn [pos file]. f_equal. lia. Qed.

Lemma advance_0 b : advance b 0 = b.
Proof. destruct b. unfold advance. cbn. f_equal. lia. Qed.

Lemma read_suffix b bs rest :
  at_suffix b (bs ++ rest) ->
  read (Z.of_nat (length bs)) b = Ok (bs, advance b (length bs)).
Proof.
  unfold at_suffix, read. intros H.
  destruct (Z.ltb_spec (Z.of_nat (length bs)) (-1)); [lia|].
  destruct (Z.eqb_spec (Z.of_nat (length bs)) (-1)); [lia|].
  rewrite Nat2Z.id, H, take_app_length. reflexivity.
Qed.

Lemma read_short b tail n :
  at_suffix b tail -> length tail < n ->
  read (Z.of_nat n) b = Ok (tail, advance b (length tail)).
Proof.
  unfold at_suffix, read. intros H Hn.
  destruct (Z.ltb_spec (Z.of_nat n) (-1)); [lia|].
  destruct (Z.eqb_spec (Z.of_nat n) (-1)); [lia|].
  rewrite Nat2Z.id, H, take_ge by lia. reflexivity.
Qed.

Lemma unpack_raw f b raw rest :
  at_suffix b (raw ++ rest) -> length raw = calcsize f ->
  unpack f b = (let* v := struct_unpack f raw in
                Ok (v, advance b (calcsize f))).
Proof.
  intros H Hlen. unfold unpack. rewrite <- Hlen.
  rewrite (read_suffix b raw rest H). cbn [bind].
  destruct (struct_unpack f raw); reflexivity.
Qed.

Lemma unpack_suffix f v b rest :
  at_suffix b (le_bytes (calcsize f) v ++ rest) ->
  (fmt_min f <= v <= fmt_max f)%Z ->
  unpack f b = Ok (v, advance b (calcsize f)).
Proof.
  intros H Hv.
  rewrite (unpack_raw f b _ rest H) by apply length_le_bytes.
  now rewrite struct_unpack_pack.
Qed.


End BufReaderFacts.

(** ** The record loop of unpack_stage *)

Section ParseFacts.

Variable islower : ascii -> bool.
Variable table : gmap string string.

Import BufReader BufReaderFacts.

Lemma read_record_spec b st code tag ext value rest :
  at_suffix b (encode_record (code, tag, ext, value) ++ rest) ->
  record_ok (code, tag, ext, value) ->
  read_record islower table b st =
    if Ascii.eqb (chr (Z.to_nat tag)) "000" then Ok (false, advance b 8, st)
    else
      let* st := record_entry islower table st code (chr (Z.to_nat tag))
                   (chr (Z.to_nat ext)) value in
      Ok (true, advance b 8, st).
Proof.
  intros H (Hc & Ht & He & Hv). unfold encode_record in H.
  rewrite <- !app_assoc in H. unfold read_record.
  rewrite (unpack_suffix fmt_H code b _ H) by (cbn; lia). cbn [bind calcsize].
  apply at_suffix_advance in H. rewrite length_le_bytes in H.
  rewrite (unpack_suffix fmt_B tag _ _ H) by (cbn; lia). cbn [bind calcsize].
  apply at_suffix_advance in H. rewrite length_le_bytes in H.
  rewrite (unpack_suffix fmt_B ext _ _ H) by (cbn; lia). cbn [bind calcsize].
  apply at_suffix_advance in H. rewrite length_le_bytes in H.
  rewrite (unpack_suffix fmt_I value _ _ H) by (cbn; lia). cbn [bind calcsize].
  rewrite !advance_advance. cbn [calcsize Nat.add].
  reflexivity.
Qed.

(** On well-formed records followed by four zero bytes, the loop takes
    every record in turn and stops at the zero section tag, if four
    more bytes are there for the value field it reads first; if not,
    that read raises. *)
Lemma read_records_spec recs tail fuel b st :
  at_suffix b (flat_map encode_record recs ++ replicate 4 0%Z ++ tail) ->
  Forall record_ok recs ->
  Forall (fun r : record => chr (Z.to_nat r.1.1.2) <> "000"%char) recs ->
  length recs < fuel ->
  read_records islower fuel table b st =
    Some (let* st' := parse_records islower table st recs in
          if 4 <=? length tail
          then Ok (advance b (8 * (length recs + 1)), st')
          else Raise StructError).
Proof.
  revert fuel b st.
  induction recs as [|[[[code tag] ext] value] recs IH];
    intros fuel b st H Hok Htag Hfuel.
  - destruct fuel as [|fuel]; [simpl in Hfuel; lia|].
    cbn [flat_map app] in H. cbn [read_records parse_records bind].
    change (replicate 4 0%Z ++ tail)
      with (le_bytes 2 0 ++ le_bytes 1 0 ++ le_bytes 1 0 ++ tail) in H.
    unfold read_record.
    rewrite (unpack_suffix fmt_H 0 b _ H) by (cbn; lia). cbn [bind calcsize].
    apply at_suffix_advance in H. rewrite length_le_bytes in H.
    rewrite (unpack_suffix fmt_B 0 _ _ H) by (cbn; lia). cbn [bind calcsize].
    apply at_suffix_advance in H. rewrite length_le_bytes in H.
    rewrite (unpack_suffix fmt_B 0 _ _ H) by (cbn; lia). cbn [bind calcsize].
    apply at_suffix_advance in H. rewrite length_le_bytes in H.
    destruct (Nat.leb_spec 4 (length tail)) as [Hlen|Hlen].
    + rewrite <- (take_drop 4 tail) in H.
      rewrite (unpack_raw fmt_I _ (take 4 tail) (drop 4 tail) H)
        by (rewrite length_take; cbn [calcsize]; lia).
      unfold struct_unpack. rewrite length_take.
      replace (4 `min` length tail) with 4 by lia.
      cbn [calcsize Nat.eqb bind].
      rewrite !advance_advance. reflexivity.
    + unfold unpack. cbn [calcsize].
      rewrite (read_short _ tail 4 H Hlen). cbn [bind].
      unfold struct_unpack. cbn [calcsize].
      destruct (Nat.eqb_spec (length tail) 4); [lia|]. reflexivity.
  - destruct fuel as [|fuel]; [simpl in Hfuel; lia|].
    inversion Hok as [|? ? Hr Hok']; inversion Htag as [|? ? Ht Htag']; subst.
    cbn [flat_map] in H. rewrite <- app_assoc in H.
    cbn [read_records]. rewrite (read_record_spec _ _ _ _ _ _ _ H Hr).
    cbn in Ht. destruct (Ascii.eqb_spec (chr (Z.to_nat tag)) "000");
      [congruence|].
    cbn [parse_records].
    destruct (record_entry islower table st code (chr (Z.to_nat tag))
                (chr (Z.to_nat ext)) value) as [st1|e]; cbn [bind];
      [|reflexivity].
    apply at_suffix_advance in H. rewrite length_encode_record in H.
    rewrite (IH fuel _ st1 H Hok' Htag') by (simpl in Hfuel; lia).
    rewrite advance_advance. cbn [length].
    replace (8 + 8 * (length recs + 1)) with (8 * (S (length recs) + 1)) by lia.
    reflexivity.
Qed.

End ParseFacts.

(** ** Sections, tags and names *)

Lemma chr_ord (c : ascii) : chr (Z.to_nat (Z.of_nat (ord c))) = c.
Proof. unfold chr, ord. rewrite Nat2Z.id. apply ascii_nat_embedding. Qed.

Lemma ord_range (c : ascii) : (0 <= Z.of_nat (ord c) < 256)%Z.
Proof. unfold ord. pose proof (nat_ascii_bounded c). lia. Qed.

Lemma ord_inj (a b : ascii) : Z.of_nat (ord a) = Z.of_nat (ord b) -> a = b.
Proof.
  intros H. rewrite <- (chr_ord a), <- (chr_ord b). now rewrite H.
Qed.

Lemma read_config_sections dir lines section files r :
  read_config dir lines section files = Ok r ->
  match section with Some c => is_section c | None => True end ->
  Forall (fun f : stage_file => is_section f.1.2) files ->
  Forall (fun f : stage_file => is_section f.1.2) r.
Proof.
  revert section files. induction lines as [|line lines IH];
    intros section files H Hsec Hfiles.
  - simpl in H. now injection H as <-.
  - destruct (directive_of line) as [k|] eqn:Ek.
    + rewrite (read_config_directive _ _ _ _ _ _ Ek) in H.
      destruct (directive_step section k) as [s'|] eqn:Es; [|discriminate].
      eapply IH; eauto.
      destruct k; cbn in Es;
        repeat match type of Es with
               | (if ?c then _ else _) = _ => destruct c; [|discriminate]
               end;
        injection Es as <-; unfold is_section; auto.
    + rewrite (read_config_asset _ _ _ _ _ Ek) in H.
      destruct section as [sec|]; [|discriminate].
      destruct (split "." (strip line)) as [|name [|ext [|? ?]]]; try discriminate.
      destruct (dir !! strip line); [|discriminate].
      eapply IH; eauto. apply Forall_app. split; [assumption|].
      constructor; [exact Hsec|constructor].
Qed.

Section TagFacts.

Variable encode : string -> option (list Z).

Lemma section_tag_is_section ext section :
  is_section section -> is_section (section_tag ext section).
Proof.
  unfold section_tag. destruct (String.eqb ext "bin"); [|auto].
  intros _. unfold is_section. auto.
Qed.

Lemma is_section_not_nul c : is_section c -> c <> "000"%char.
Proof. intros [-> | [-> | [-> | ->]]]; discriminate. Qed.

(** No record carries the zero section tag that ends the list. *)
Lemma records_tags_nonzero files cache_size :
  Forall (fun f : stage_file => is_section f.1.2) files ->
  Forall (fun r : record => chr (Z.to_nat r.1.1.2) <> "000"%char)
    (records encode files cache_size).
Proof.
  revert cache_size.
  induction files as [|[[[name ext] section] size] rest IH];
    intros cache_size H; [constructor|].
  inversion H as [|? ? Hs Hrest]; subst. cbn in Hs.
  assert (Hhead : chr (Z.to_nat (Z.of_nat (ord (section_tag ext section))))
                  <> "000"%char).
  { rewrite chr_ord. apply is_section_not_nul.
    now apply section_tag_is_section. }
  cbn [records]. destruct (Ascii.eqb section "c").
  - constructor; [exact Hhead|]. apply Forall_app. split; [|now apply IH].
    destruct (run_ends rest); constructor; [|constructor].
    cbn. discriminate.
  - constructor; [exact Hhead|now apply IH].
Qed.

(** A record tagged Cache is a trailer or has a record after it. *)
Lemma records_cache_successor files cache_size i code tag ext value :
  records encode files cache_size !! i = Some (code, tag, ext, value) ->
  tag = Z.of_nat (ord "c") ->
  (code = 0%Z /\ ext = 255%Z) \/ is_Some (records encode files cache_size !! S i).
Proof.
  revert cache_size i.
  induction files as [|[[[name' ext'] section'] size'] rest IH];
    intros cache_size i H Htag; [discriminate|].
  cbn [records] in *.
  destruct (Ascii.eqb_spec section' "c") as [->|Hne].
  - destruct i as [|i].
    + right. destruct (run_ends rest) eqn:Eends; cbn [app lookup]; [cbn; eauto|].
      destruct rest as [|g rest']; [discriminate|].
      pose proof (length_records_ge encode (g :: rest') (cache_size + size')) as Hl.
      cbn [app]. apply lookup_lt_is_Some. cbn [length] in *. lia.
    + cbn in H. destruct (run_ends rest); cbn [app] in *.
      * destruct i as [|i].
        -- left. cbn in H. injection H as <- _ <- _. auto.
        -- cbn in H. destruct (IH _ _ H Htag) as [?|?]; [now left|now right].
      * destruct (IH _ _ H Htag) as [?|?]; [now left|now right].
  - destruct i as [|i].
    + exfalso. cbn in H. injection H as _ <- _ _.
      apply ord_inj in Htag. unfold section_tag in Htag.
      destruct (String.eqb ext' "bin"); [discriminate|congruence].
    + cbn in H. destruct (IH _ _ H Htag) as [?|?]; [now left|now right].
Qed.

End TagFacts.

(** ** What the record loop makes of records *)

Section EntryFacts.

Variable islower : ascii -> bool.
Variable table : gmap string string.

Lemma record_entry_inv st code mode ext value st' :
  record_entry islower table st code mode ext value = Ok st' ->
  exists name,
    p_files st' = p_files st ++ [(name, mode, value)]
    /\ (code = 0%Z -> ext = "255"%char -> name = "cache_end").
Proof.
  unfold record_entry.
  destruct (negb (mode_ok mode)); [discriminate|].
  destruct (negb (islower ext || Ascii.eqb ext "255")); [discriminate|].
  intros H. bind_inv H. destruct a as [[name m] t].
  injection H as <-. exists name. split; [reflexivity|].
  intros -> ->. cbn in E. now injection E as <- _ _.
Qed.

Lemma parse_records_inv st recs st' :
  parse_records islower table st recs = Ok st' ->
  exists names,
    p_files st' = p_files st ++ zip_with entry_of_record names recs
    /\ length names = length recs
    /\ forall i name code tag ext value,
         names !! i = Some name -> recs !! i = Some (code, tag, ext, value) ->
         code = 0%Z -> ext = 255%Z -> name = "cache_end".
Proof.
  revert st. induction recs as [|[[[code tag] ext] value] recs IH]; intros st H.
  - injection H as <-. exists []. rewrite app_nil_r. repeat split.
    intros i ? ? ? ? ? Hn. discriminate.
  - cbn [parse_records] in H. bind_inv H.
    apply record_entry_inv in E as (name & Hf & Hce).
    apply IH in H as (names & Hfs & Hlen & Hnames).
    exists (name :: names). repeat split.
    + rewrite Hfs, Hf, <- app_assoc. reflexivity.
    + cbn. now rewrite Hlen.
    + intros [|i] nm c t e v Hn Hr Hc He.
      * cbn in Hn, Hr. injection Hn as <-. injection Hr as <- <- <- <-.
        subst. now apply Hce.
      * cbn in Hn, Hr. eapply Hnames; eauto.
Qed.

End EntryFacts.

(** ** Reading back what pack_stage wrote *)

Lemma align_gap_record_area start n :
  start mod 2048 = 0 ->
  4 <= align_gap (start + 4 + 8 * n) /\ align_gap (start + 4 + 8 * n) mod 8 = 4.
Proof.
  intros H. unfold align_gap.
  pose proof (Nat.div_mod_eq start 2048) as Hs. rewrite H in Hs.
  pose proof (Nat.div_mod_eq (start + 4 + 8 * n + 2047) 2048) as Hq.
  pose proof (Nat.mod_upper_bound (start + 4 + 8 * n + 2047) 2048) as Hr.
  set (q := (start + 4 + 8 * n + 2047) / 2048) in *.
  set (r := (start + 4 + 8 * n + 2047) mod 2048) in *.
  set (k := start / 2048) in *.
  assert (Hgap : q * 2048 - (start + 4 + 8 * n) = 2047 - r) by lia.
  rewrite Hgap.
  assert (Hr8 : r mod 8 = 3).
  { replace r with (3 + (n + 256 * k + 256 - 256 * q) * 8) by lia.
    rewrite Nat.Div0.mod_add. reflexivity. }
  pose proof (Nat.div_mod_eq r 8) as Hr'. rewrite Hr8 in Hr'.
  split; [lia|].
  replace (2047 - r) with (4 + (255 - r / 8) * 8) by lia.
  rewrite Nat.Div0.mod_add. reflexivity.
Qed.

Lemma lookup_file_write data pos bs k :
  k < length bs -> file_write data pos bs !! (pos + k) = bs !! k.
Proof.
  intros Hk. destruct bs as [|b bs]; [simpl in Hk; lia|].
  rewrite file_write_unfold by discriminate.
  rewrite lookup_app_r by (rewrite length_resize; lia).
  rewrite length_resize. replace (pos + k - pos) with k by lia.
  now rewrite lookup_app_l by assumption.
Qed.

Section ImageFacts.

Variable encode : string -> option (list Z).
Variable islower : ascii -> bool.
Variable table : gmap string string.

Import BufReaderFacts.

(** The stage as the reader finds it where the writer started. *)
Lemma packed_suffix stage buf size buf' out :
  pack_stage encode stage buf = Ok (size, buf', out) ->
  exists files,
    read_config (assets stage) (data_cnf stage) None [] = Ok files
    /\ size = length (stage_image encode (assets stage) files (BufWriter.pos buf))
    /\ Forall record_ok (records encode files 0)
    /\ Forall (fun f => is_Some (assets stage !! asset_name f)) files
    /\ at_suffix (BufReader.mk (BufWriter.file buf') (BufWriter.pos buf))
         (stage_image encode (assets stage) files (BufWriter.pos buf)
          ++ drop (BufWriter.pos buf + size) (BufWriter.file buf)).
Proof.
  intros H. apply pack_stage_spec in H
    as (files & Hcfg & Hfile & Hpos & Hsize & Hrec & Hpay & _).
  exists files. repeat split; try assumption.
  unfold at_suffix. cbn [BufReader.pos BufReader.file].
  rewrite Hfile, drop_file_write, <- Hsize. reflexivity.
Qed.

(** The record loop on a packed stage: it makes entries of the records
    written and stops in the padding. *)
Lemma read_records_packed stage buf size buf' out files st :
  pack_stage encode stage buf = Ok (size, buf', out) ->
  BufWriter.pos buf mod 2048 = 0 ->
  read_config (assets stage) (data_cnf stage) None [] = Ok files ->
  let recs := records encode files 0 in
  let rd := BufReader.mk (BufWriter.file buf') (BufWriter.pos buf + 4) in
  read_records islower (S (length (BufWriter.file buf'))) table rd st =
    Some (let* st' := parse_records islower table st recs in
          if BufWriter.pos buf + 4 + 8 * length recs + 8
             <=? length (BufWriter.file buf')
          then Ok (advance rd (8 * (length recs + 1)), st')
          else Raise StructError).
Proof.
  intros H Hal Hcfg recs rd.
  destruct (packed_suffix _ _ _ _ _ H) as (files' & Hcfg' & Hsize & Hrec & _ & Hsuf).
  rewrite Hcfg in Hcfg'. injection Hcfg' as <-.
  set (start := BufWriter.pos buf) in *. fold recs in Hrec.
  unfold stage_image in Hsuf. fold recs in Hsuf.
  rewrite length_flat_map_records in Hsuf.
  destruct (align_gap_record_area start (length recs) Hal) as [Hgap _].
  set (gap := align_gap (start + 4 + 8 * length recs)) in *.
  replace gap with (4 + (gap - 4)) in Hsuf by lia.
  rewrite replicate_add in Hsuf.
  rewrite !app_assoc in Hsuf. rewrite <- (app_assoc _ (le_bytes 2 _)) in Hsuf.
  rewrite <- !app_assoc in Hsuf.
  rewrite (app_assoc (le_bytes 2 _) (le_bytes 2 _)) in Hsuf.
  apply at_suffix_advance in Hsuf.
  rewrite length_app, !length_le_bytes in Hsuf.
  change (advance _ (2 + 2)) with rd in Hsuf.
  assert (Hlen : length (BufWriter.file buf') - (start + 4)
                 = 8 * length recs + 4
                   + length (replicate (gap - 4) 0%Z
                        ++ payload (assets stage) files
                             (start + 4 + 8 * length recs + (4 + (gap - 4)))
                        ++ drop (start + size) (BufWriter.file buf))).
  { unfold at_suffix in Hsuf. cbn [BufReader.pos BufReader.file rd] in Hsuf.
    rewrite <- (length_drop (BufWriter.file buf') (start + 4)), Hsuf.
    rewrite !length_app, length_flat_map_records, !length_replicate. lia. }
  rewrite (read_records_spec islower table recs _ _ rd st Hsuf Hrec).
  - f_equal. destruct (parse_records islower table st recs); [|reflexivity].
    cbn [bind].
    match goal with
    | |- (if ?a <=? ?b then _ else _) = (if ?c <=? ?d then _ else _) =>
        destruct (Nat.leb_spec a b), (Nat.leb_spec c d);
        try reflexivity; exfalso; lia
    end.
  - apply records_tags_nonzero.
    apply (read_config_sections _ _ None [] files Hcfg I). constructor.
  - lia.
Qed.

End ImageFacts.

(** ** The section tag of .bin entries (C2) *)

Lemma section_is_true section c :
  section_is section c = true -> section = Some c.
Proof.
  destruct section as [s|]; [|discriminate]. cbn.
  intros H. apply Ascii.eqb_eq in H. now subst.
Qed.

Lemma write_stage_config_spec files section config config' :
  write_stage_config files section config = Ok config' ->
  config' = config ++ render section (listed files).
Proof.
  revert section config.
  induction files as [|[[name mode] size] files IH]; intros section config H.
  - cbn in *. injection H as <-. now rewrite app_nil_r.
  - cbn [write_stage_config listed] in *.
    destruct (negb (mode_ok mode)); [discriminate|].
    destruct (String.eqb name "cache_end"); [now apply IH|].
    cbn [render].
    destruct (section_is section (if contains ".bin" name then "n"%char else mode))
      eqn:Es; cbn [negb] in *; apply IH in H; rewrite H, <- ?app_assoc;
      [|reflexivity].
    apply section_is_true in Es. rewrite <- Es. reflexivity.
Qed.

Lemma listed_bin files name mode :
  (name, mode) ∈ listed files -> contains ".bin" name = true -> mode = "n"%char.
Proof.
  induction files as [|[[name' mode'] size] files IH]; intros Hin Hbin.
  - cbn in Hin. inversion Hin.
  - cbn [listed] in Hin. destruct (String.eqb name' "cache_end"); [auto|].
    apply elem_of_cons in Hin as [Heq|Hin]; [|auto].
    injection Heq as -> ->. now rewrite Hbin.
Qed.

(** C2 (amended).  For every entry whose extension is "bin", the section
    tag [pack_stage] writes in its record is ASCII 's' (Sound), whatever
    section the config list put it in; and in the config list
    [write_stage_config] regenerates, every name that holds ".bin" is
    listed under the NoCache directive. *)
Theorem bin_entries_tagged_sound (encode : string -> option (list Z))
    (stage : stage_dir) (buf buf' : BufWriter.t) (size : nat)
    (out : list string) (files : list stage_file) (i : nat) (name : string)
    (section : ascii) (sz : nat) (entries : list entry) (config : list string) :
  pack_stage encode stage buf = Ok (size, buf', out) ->
  read_config (assets stage) (data_cnf stage) None [] = Ok files ->
  files !! i = Some (name, "bin", section, sz) ->
  write_stage_config entries None [] = Ok config ->
  BufWriter.file buf' !! (BufWriter.pos buf + (4 + 8 * record_index files i + 2))
    = Some (Z.of_nat (ord "s"))
  /\ config = render None (listed entries)
  /\ forall nm mode,
       (nm, mode) ∈ listed entries -> contains ".bin" nm = true ->
       mode = "n"%char.
Proof.
  intros Hpack Hcfg Hi Hw. split; [|split].
  - apply pack_stage_spec in Hpack
      as (files' & Hcfg' & Hfile & _ & _ & Hrec & _).
    rewrite Hcfg in Hcfg'. injection Hcfg' as <-.
    destruct (records_lookup encode files i _ _ _ _ 0 Hi) as [value Hr].
    assert (Htag : flat_map encode_record (records encode files 0)
                     !! (8 * record_index files i + 2)
                   = Some (Z.of_nat (ord "s"))).
    { eapply lookup_flat_map_records; [exact Hr|]. apply ord_range. }
    pose proof (lookup_lt_Some _ _ _ Htag) as Hlt.
    rewrite Hfile, lookup_file_write.
    + unfold stage_image.
      rewrite lookup_app_r by (rewrite length_le_bytes; lia).
      rewrite lookup_app_r by (rewrite !length_le_bytes; lia).
      rewrite !length_le_bytes.
      rewrite lookup_app_l by lia.
      rewrite <- Htag. f_equal. lia.
    + unfold stage_image. rewrite !length_app, !length_le_bytes. lia.
  - now apply write_stage_config_spec in Hw.
  - apply listed_bin.
Qed.

Lemma bin_entries_tagged_sound_witness :
  exists size buf' out,
    pack_stage ascii_bytes demo_stage fresh = Ok (size, buf', out)
    /\ BufWriter.file buf' !! 14 = Some 115%Z
    /\ render None (listed [("v.bin", "s"%char, 2%Z)])
       = [".nocache" +:+ nl; "v.bin" +:+ nl].
Proof.
  destruct (pack_stage ascii_bytes demo_stage fresh) as [[[size buf'] out]|e] eqn:E;
    [|vm_compute in E; discriminate E].
  exists size, buf', out. split; [reflexivity|].
  destruct (bin_entries_tagged_sound ascii_bytes demo_stage fresh buf' size out
              demo_files 1 "v" "n"%char 2 [("v.bin", "s"%char, 2%Z)]
              [".nocache" +:+ nl; "v.bin" +:+ nl] E)
    as (H1 & H2 & _); [reflexivity..|].
  split; [exact H1|]. symmetry. exact H2.
Defined.

(** C2, the claim as it was stated: the tag written for a [.bin] entry
    is not 'n'.  In the record of [v.bin], listed under [.nocache], the
    tag byte is 115 ('s'), not 110. *)
Lemma bin_tag_is_not_nocache :
  match pack_stage ascii_bytes demo_stage fresh with
  | Ok (_, buf', _) =>
      demo_files !! 1 = Some ("v", "bin", "n"%char, 2)
      /\ BufWriter.file buf' !! (4 + 8 * record_index demo_files 1 + 2)
         = Some (Z.of_nat (ord "s"))
      /\ BufWriter.file buf' !! (4 + 8 * record_index demo_files 1 + 2)
         <> Some (Z.of_nat (ord "n"))
  | Raise _ => False
  end.
Proof. vm_compute. repeat split. discriminate. Qed.

(** ** Cache runs (C3) *)

Section RunFacts.

Variable encode : string -> option (list Z).

Lemma head_record_cache name ext size cache_size :
  ext <> "bin" ->
  entry_of_record name (head_record encode (name, ext, "c"%char, size) cache_size)
  = (name, "c"%char, Z.of_nat cache_size).
Proof.
  intros H. cbn. unfold section_tag.
  destruct (String.eqb_spec ext "bin"); [congruence|].
  now rewrite chr_ord.
Qed.


End RunFacts.




(** ** The sub-header (C5) *)

(** C5, at the failing input.  A stage of 255 entries in one cache run
    has 256 records: the record area takes 2052 bytes, two sectors, and
    the content starts at byte 4096.  [pack_stage] counts the entries
    only: it writes 1 as the header sector count and prints no warning,
    and [unpack_stage] takes the content from byte 2048. *)
Theorem header_sectors_miss_trailer :
  match pack_stage ascii_bytes full_header_stage fresh with
  | Ok (size, buf', out) =>
      let file := BufWriter.file buf' in
      (exists files,
         read_config (assets full_header_stage) (data_cnf full_header_stage)
           None [] = Ok files
         /\ length files = 255
         /\ length (records ascii_bytes files 0) = 256)
      /\ take 4 file = [1; 0; 3; 0]%Z
      /\ (4 + 8 * 256 + 2047) / 2048 = 2
      /\ out = []
      /\ file !! 4096 = Some 7%Z
      /\ match unpack_stage ascii_islower tex_table (BufReader.mk file 0) with
         | Some (Ok u) =>
             take 2 (u_written u) = [("a.tex", [255%Z]); ("a.tex", [0%Z])]
             /\ u_warnings u = []
         | _ => False
         end
  | Raise _ => False
  end.
Proof.
  vm_compute. split; [|repeat split].
  eexists. split; [reflexivity|]. split; reflexivity.
Qed.

(** ** The end of the record list (C9) *)

Lemma chr_inv (t : Z) (c : ascii) :
  (0 <= t < 256)%Z -> chr (Z.to_nat t) = c -> t = Z.of_nat (ord c).
Proof.
  intros Ht <-. unfold chr, ord.
  rewrite nat_ascii_embedding by lia. lia.
Qed.




(** ** The lookup of the next entry (C10) *)

(** C10.  In the entries [unpack_stage] parses from a stage that
    [pack_stage] wrote, every Cache entry that is not a trailer has an
    entry after it: the lookup of the next entry's value is in bounds
    and the entry's size is the difference of the two values. *)
Theorem cache_entry_has_successor (encode : string -> option (list Z))
    (islower : ascii -> bool) (table : gmap string string)
    (stage : stage_dir) (buf buf' : BufWriter.t) (size : nat)
    (out : list string) (rd : BufReader.t) (st : parse_state)
    (i : nat) (name : string) (value : Z) :
  pack_stage encode stage buf = Ok (size, buf', out) ->
  BufWriter.pos buf mod 2048 = 0 ->
  read_records islower (S (length (BufWriter.file buf'))) table
    (BufReader.mk (BufWriter.file buf') (BufWriter.pos buf + 4)) parse_start
  = Some (Ok (rd, st)) ->
  p_files st !! i = Some (name, "c"%char, value) ->
  name <> "cache_end" ->
  exists next,
    p_files st !! S i = Some next
    /\ entry_size "c" value (drop (S i) (p_files st)) = Ok (next.2 - value)%Z.
Proof.
  intros Hpack Hal Hloop Hi Hname.
  destruct (packed_suffix encode stage buf size buf' out Hpack)
    as (files & Hcfg & _ & Hrec & _).
  rewrite (read_records_packed encode islower table stage buf size buf' out
             files parse_start Hpack Hal Hcfg) in Hloop.
  injection Hloop as Hloop.
  destruct (parse_records islower table parse_start (records encode files 0))
    as [st'|e] eqn:Eparse; [|discriminate].
  cbn [bind] in Hloop.
  destruct (_ <=? _) in Hloop; [|discriminate]. injection Hloop as _ <-.
  apply parse_records_inv in Eparse as (names & Hfiles & Hlen & Hce).
  cbn [p_files parse_start app] in Hfiles. rewrite Hfiles in *.
  apply lookup_zip_with_Some in Hi as (nm & [[[code tag] ext] v] & Heq & Hn & Hr).
  cbn in Heq. injection Heq as <- Htag <-. symmetry in Htag.
  pose proof (proj1 (Forall_lookup _ _) Hrec _ _ Hr) as (_ & Htr & _).
  apply chr_inv in Htag; [|exact Htr].
  destruct (records_cache_successor encode files 0 i code tag ext value Hr Htag)
    as [[Hc He]|[[[[code' tag'] ext'] v'] Hnext]].
  - exfalso. apply Hname. eapply Hce; eauto.
  - assert (Hsn : is_Some (names !! S i)).
    { apply lookup_lt_is_Some. rewrite Hlen. now apply lookup_lt_Some in Hnext. }
    destruct Hsn as [nm' Hn'].
    assert (Hz : zip_with entry_of_record names (records encode files 0) !! S i
                 = Some (entry_of_record nm' (code', tag', ext', v'))).
    { apply lookup_zip_with_Some. eauto. }
    eexists. split; [exact Hz|].
    unfold entry_size. cbn [Ascii.eqb Bool.eqb andb].
    rewrite (drop_S _ _ _ Hz). cbn. reflexivity.
Qed.

Lemma cache_entry_has_successor_witness :
  p_files demo_parsed !! 4 = Some ("c.tex", "c"%char, 30%Z)
  /\ exists next,
       p_files demo_parsed !! 5 = Some next
       /\ entry_size "c" 30 (drop 5 (p_files demo_parsed)) = Ok (next.2 - 30)%Z.
Proof.
  split; [vm_compute; reflexivity|].
  apply (cache_entry_has_successor ascii_bytes ascii_islower demo_table
           demo_stage fresh demo_packed 10240 []
           (advance (BufReader.mk (BufWriter.file demo_packed) 4) 64)
           demo_parsed 4 "c.tex" 30%Z).
  - vm_compute. reflexivity.
  - reflexivity.
  - vm_compute. reflexivity.
  - vm_compute. reflexivity.
  - discriminate.
Defined.

(** ** The container *)

Local Opaque Nat.div Nat.modulo.

Section ContainerFacts.

Variable encode : string -> option (list Z).

Import BufWriter BufWriterFacts.



Lemma align_aligned buf : pos buf mod 2048 = 0 -> align 2048 buf = buf.
Proof.
  intros H. rewrite align_write, (align_gap_aligned _ H). apply write_nil.
Qed.


End ContainerFacts.

(** ** pack_dir *)

Section DirFacts.

Variable encode : string -> option (list Z).

Import BufWriter BufWriterFacts.


Lemma length_struct_pack_8s b : length (struct_pack_8s b) = 8.
Proof.
  unfold struct_pack_8s. rewrite length_app, length_take, length_replicate. lia.
Qed.







End DirFacts.




(** ** The stage table (C4) *)

Section TableFacts.

Variable encode : string -> option (list Z).

Import BufWriter BufWriterFacts.

Lemma pack_empty_stage buf :
  pos buf mod 2048 = 0 ->
  exists buf',
    pack_stage encode empty_stage buf = Ok (2048, buf', [])
    /\ pos buf' = pos buf + 2048.
Proof.
  intros Hal. unfold pack_stage, empty_stage.
  cbn [data_cnf assets read_config bind pack_records pack_payload length].
  cbv zeta. unfold cur.
  rewrite align_write. cbn [pos seek write].
  rewrite (align_gap_add (pos buf) 4 Hal).
  change (align_gap 4) with 2044. rewrite length_replicate.
  change ((4 + 0 * 8 + 2047) / 2048 * 2048) with 2048.
  change (2048 / 2048) with 1. change (255 <? 0) with false.
  replace (pos buf + 4 + 2044 - pos buf) with 2048 by lia.
  change (2048 / 2048) with 1.
  rewrite pack_ok by (cbn; lia). cbn [bind].
  rewrite pack_ok by (cbn; lia). cbn [bind].
  eexists. split; [reflexivity|]. cbn [pos seek]. lia.
Qed.

Lemma pack_stages_empty n buf sizes out :
  pos buf mod 2048 = 0 ->
  exists buf',
    pack_stages encode empty_world (replicate n "S") buf sizes out
    = Ok (buf', sizes ++ replicate n ("S", 2048), out).
Proof.
  revert buf sizes. induction n as [|n IH]; intros buf sizes Hal.
  - exists buf. cbn. now rewrite app_nil_r.
  - cbn [replicate pack_stages].
    change (empty_world !! "S") with (Some empty_stage).
    destruct (pack_empty_stage buf Hal) as (buf1 & -> & Hpos).
    cbn [bind].
    assert (Hal1 : pos buf1 mod 2048 = 0).
    { rewrite Hpos. now apply mod_2048_add. }
    rewrite (align_aligned buf1 Hal1), app_nil_r.
    destruct (IH buf1 (sizes ++ [("S", 2048)]) Hal1) as (buf' & ->).
    exists buf'. now rewrite <- app_assoc.
Qed.

Lemma write_table_empty n off buf :
  (Z.of_nat (off + n) <= 4294967295)%Z ->
  write_table (replicate n ("S", 2048)) off buf
  = Ok (write (table_bytes (replicate n ("S", 2048)) off) buf).
Proof.
  revert off buf. induction n as [|n IH]; intros off buf H.
  - cbn. now rewrite write_nil.
  - cbn [replicate write_table table_bytes].
    change (encode_ascii "S") with (@Ok (list Z) [83%Z]). cbn [bind].
    rewrite pack_ok by (cbn; lia). cbn [bind].
    change ((2048 + 2047) / 2048) with 1.
    rewrite IH by lia. unfold pack_8s.
    now rewrite !write_write, <- ?app_assoc.
Qed.

Lemma table_bytes_first stage size rest off tail :
  take 4 (drop 8 (table_bytes ((stage, size) :: rest) off ++ tail))
  = le_bytes 4 (Z.of_nat off).
Proof.
  cbn [table_bytes]. rewrite <- !app_assoc.
  rewrite drop_app_length' by (now rewrite length_struct_pack_8s).
  now rewrite take_app_length' by (now rewrite length_le_bytes).
Qed.

End TableFacts.

(** C4, at the failing input.  With 171 stages the table takes 2052
    bytes, so [pack_dir] starts the first stage at byte 4096, the next
    sector boundary past the table; the offset it records for that
    stage is 1 all the same, which [unpack_dir] takes for byte 2048. *)
Theorem table_offset_misses_first_stage :
  let stage_list := replicate 171 ("S" +:+ nl) in
  exists f out,
    pack_dir ascii_bytes stage_list empty_world = Ok (f, out)
    /\ pack_stages ascii_bytes empty_world (take 0 (map strip stage_list))
         (container_start 171) [] [] = Ok (container_start 171, [], [])
    /\ BufWriter.pos (container_start 171) = 4096
    /\ take 4 (drop 12 f) = le_bytes 4 1%Z
    /\ (le_value (take 4 (drop 12 f)) * 2048)%Z <> 4096%Z.
Proof.
  cbv zeta.
  assert (Hstrip : map strip (replicate 171 ("S" +:+ nl)) = replicate 171 "S").
  { apply (fmap_replicate strip). }
  destruct (pack_stages_empty ascii_bytes 171 (container_start 171) [] [])
    as (buf1 & Hloop); [reflexivity|].
  exists (file_write (BufWriter.file buf1) 4
            (table_bytes (replicate 171 ("S", 2048)) 1)), [].
  assert (Htake : take 4 (drop 12 (file_write (BufWriter.file buf1) 4
                     (table_bytes (replicate 171 ("S", 2048)) 1)))
                  = le_bytes 4 1%Z).
  { replace 12 with (4 + 8) by reflexivity.
    rewrite <- drop_drop, drop_file_write.
    rewrite (replicate_S 170). apply table_bytes_first. }
  split; [|split; [reflexivity|split; [reflexivity|split; [exact Htake|]]]].
  - unfold pack_dir. cbv zeta. rewrite Hstrip, length_replicate.
    rewrite BufWriterFacts.pack_ok by (cbn; lia). cbn [bind].
    change (BufWriter.seek _ _) with (container_start 171) at 1.
    rewrite Hloop. cbn [bind app].
    rewrite write_table_empty by lia. cbn [bind]. reflexivity.
  - rewrite Htake. vm_compute. discriminate.
Qed.

(** ** Names *)

Lemma split_nonempty sep s : split sep s <> [].
Proof.
  destruct s as [|c s]; cbn; [discriminate|].
  destruct (Ascii.eqb c sep); [discriminate|].
  destruct (split sep s); discriminate.
Qed.

Lemma split_one sep s x : split sep s = [x] -> s = x.
Proof.
  revert x. induction s as [|c s IH]; intros x H; cbn in H.
  - now injection H.
  - destruct (Ascii.eqb c sep).
    + injection H as _ H. now apply split_nonempty in H.
    + destruct (split sep s) as [|y ys] eqn:E; [now apply split_nonempty in E|].
      injection H as <- ->. f_equal. now apply IH.
Qed.

(** A line that splits in two at its dot is the two parts joined by a
    dot. *)
Lemma split_two s name ext :
  split "." s = [name; ext] -> s = name +:+ "." +:+ ext.
Proof.
  revert name. induction s as [|c s IH]; intros name H; cbn in H.
  - discriminate.
  - destruct (Ascii.eqb_spec c ".") as [->|Hc].
    + injection H as <- H. apply split_one in H. now subst.
    + destruct (split "." s) as [|y ys] eqn:E; [now apply split_nonempty in E|].
      injection H as <- ->.
      change (String c y +:+ "." +:+ ext) with (String c (y +:+ "." +:+ ext)).
      f_equal. now apply IH.
Qed.







(** ** Parsing the records of a stage *)

Section ParseFiles.

Variable encode : string -> option (list Z).
Variable islower : ascii -> bool.
Variable table : gmap string string.






End ParseFiles.

(** ** The regenerated config list *)


Section ListedFacts.

Variable encode : string -> option (list Z).
Variable islower : ascii -> bool.
Variable table : gmap string string.



End ListedFacts.

(** ** Extraction *)

Section ExtractFacts.

Variable dir : gmap string (list Z).

Import BufReader BufReaderFacts.



End ExtractFacts.

(** ** The round trip of a stage (C1) *)


Section RoundTripFacts.

Variable encode : string -> option (list Z).
Variable islower : ascii -> bool.
Variable table : gmap string string.

Import BufReaderFacts.


End RoundTripFacts.




(** * Further properties of the code *)

(** ** The two buffers *)

(** A field that [BufWriter.pack] wrote is the field [BufReader.unpack]
    reads at the same place, and the reader ends where the writer did:
    [struct.pack] and [struct.unpack] agree on all four formats, the
    signed one with its negative values too. *)
Theorem pack_then_unpack (f : fmt) (v : Z) (buf buf' : BufWriter.t) :
  BufWriter.pack f v buf = Ok buf' ->
  BufReader.unpack f (BufReader.mk (BufWriter.file buf') (BufWriter.pos buf))
  = Ok (v, BufReader.mk (BufWriter.file buf') (BufWriter.pos buf')).
Proof.
  intros Hpack. apply BufWriterFacts.pack_inv in Hpack as [-> Hrange].
  set (rd := BufReader.mk _ _).
  assert (Hsuf : at_suffix rd (le_bytes (calcsize f) v
                               ++ drop (BufWriter.pos buf + calcsize f)
                                    (BufWriter.file buf))).
  { unfold at_suffix, rd. cbn [BufReader.pos BufReader.file BufWriter.write
                               BufWriter.file].
    rewrite drop_file_write, length_le_bytes. reflexivity. }
  rewrite (BufReaderFacts.unpack_suffix f v rd _ Hsuf Hrange).
  unfold advance, rd. cbn [BufReader.pos BufReader.file].
  rewrite BufWriterFacts.pos_write, length_le_bytes. reflexivity.
Qed.

Lemma pack_then_unpack_witness :
  BufReader.unpack fmt_h (BufReader.mk [7; 254; 255]%Z 1)
  = Ok ((-2)%Z, BufReader.mk [7; 254; 255]%Z 3).
Proof.
  apply (pack_then_unpack fmt_h (-2) (BufWriter.mk [7%Z] 1)
           (BufWriter.mk [7; 254; 255]%Z 3)).
  reflexivity.
Defined.

(** Where fewer bytes are left in the file than the format takes,
    [BufReader.unpack] raises [struct.error]: the short read itself
    raises nothing. *)
Theorem unpack_short_raises (f : fmt) (b : BufReader.t) :
  length (BufReader.file b) < BufReader.pos b + calcsize f ->
  BufReader.unpack f b = Raise StructError.
Proof.
  intros Hshort. unfold BufReader.unpack, BufReader.read.
  destruct (Z.ltb_spec (Z.of_nat (calcsize f)) (-1)) as [Hneg|_]; [lia|].
  destruct (Z.eqb_spec (Z.of_nat (calcsize f)) (-1)) as [Hneg|_]; [lia|].
  cbn [bind]. rewrite Nat2Z.id. unfold struct_unpack.
  rewrite length_take, length_drop.
  destruct (Nat.eqb_spec (calcsize f `min` (length (BufReader.file b)
                                            - BufReader.pos b))
              (calcsize f)) as [Heq|_]; [|reflexivity].
  destruct f; cbn [calcsize] in *; lia.
Qed.

Lemma unpack_short_raises_witness :
  BufReader.unpack fmt_I (BufReader.mk [1; 2; 3; 4; 5; 6]%Z 4)
  = Raise StructError.
Proof.
  apply (unpack_short_raises fmt_I (BufReader.mk [1; 2; 3; 4; 5; 6]%Z 4)).
  cbn. lia.
Defined.

(** The distance from [cur] to the next multiple of [n]. *)
Lemma align_distance (cur n : nat) :
  0 < n -> (cur + (n - 1)) / n * n - cur = (n - cur mod n) mod n.
Proof.
  intros Hn.
  pose proof (Nat.div_mod_eq cur n) as Hc.
  pose proof (Nat.mod_upper_bound cur n ltac:(lia)) as Hr.
  remember (cur / n) as q eqn:Hq. remember (cur mod n) as r eqn:Hrr.
  clear Hq Hrr. subst cur.
  destruct (Nat.eq_dec r 0) as [->|Hr0].
  - rewrite Nat.sub_0_r, Nat.Div0.mod_same.
    replace (n * q + 0 + (n - 1)) with (q * n + (n - 1)) by lia.
    rewrite Nat.div_add_l by lia. rewrite Nat.div_small by lia. lia.
  - rewrite (Nat.mod_small (n - r)) by lia.
    replace (n * q + r + (n - 1)) with ((q + 1) * n + (r - 1)) by lia.
    rewrite Nat.div_add_l by lia. rewrite Nat.div_small by lia. lia.
Qed.

(** [BufWriter.align] writes just the zero bytes that bring the
    position to the next multiple of [n]: fewer than [n] of them, and
    none, leaving the file as it is, when the position is a multiple
    already. *)
Theorem writer_align_boundary (n : nat) (b : BufWriter.t) :
  0 < n ->
  let gap := (n - BufWriter.pos b mod n) mod n in
  BufWriter.align n b = BufWriter.write (replicate gap 0%Z) b
  /\ BufWriter.pos (BufWriter.align n b) = BufWriter.pos b + gap
  /\ BufWriter.pos (BufWriter.align n b) mod n = 0
  /\ gap < n
  /\ (BufWriter.pos b mod n = 0 -> BufWriter.align n b = b).
Proof.
  intros Hn gap.
  assert (Hal : BufWriter.align n b = BufWriter.write (replicate gap 0%Z) b).
  { unfold BufWriter.align, BufWriter.cur. cbv zeta.
    rewrite (align_distance _ n Hn). reflexivity. }
  assert (Hgap : gap < n) by (apply Nat.mod_upper_bound; lia).
  rewrite Hal, BufWriterFacts.pos_write, length_replicate.
  split; [reflexivity|]. split; [reflexivity|]. split; [|split; [exact Hgap|]].
  - subst gap.
    pose proof (Nat.div_mod_eq (BufWriter.pos b) n) as Hc.
    pose proof (Nat.mod_upper_bound (BufWriter.pos b) n ltac:(lia)) as Hr.
    destruct (Nat.eq_dec (BufWriter.pos b mod n) 0) as [H0|H0].
    + rewrite H0, Nat.sub_0_r, Nat.Div0.mod_same, Nat.add_0_r. exact H0.
    + rewrite (Nat.mod_small (n - _)) by lia.
      replace (BufWriter.pos b + (n - BufWriter.pos b mod n))
        with ((BufWriter.pos b / n + 1) * n) by lia.
      apply Nat.Div0.mod_mul.
  - intros H0. subst gap.
    rewrite H0, Nat.sub_0_r, Nat.Div0.mod_same. cbn [replicate].
    apply BufWriterFacts.write_nil.
Qed.

Lemma writer_align_boundary_witness :
  BufWriter.pos (BufWriter.align 2048 (BufWriter.mk [1; 2; 3]%Z 3)) = 2048
  /\ length (BufWriter.file (BufWriter.align 2048 (BufWriter.mk [1; 2; 3]%Z 3)))
     = 2048.
Proof.
  destruct (writer_align_boundary 2048 (BufWriter.mk [1; 2; 3]%Z 3))
    as (Hal & Hpos & _); [lia|].
  split.
  - rewrite Hpos. reflexivity.
  - rewrite Hal. vm_compute. reflexivity.
Defined.

(** [BufReader.align] moves the position to the next multiple of [n]
    where the file reaches that far; where it does not, the position
    stops at the end of the file, and a reader already past the end
    stays where it is. *)
Theorem reader_align_stops_at_end (n : nat) (b : BufReader.t) :
  0 < n ->
  let target := BufReader.pos b + (n - BufReader.pos b mod n) mod n in
  BufReader.file (BufReader.align n b) = BufReader.file b
  /\ BufReader.pos (BufReader.align n b)
     = if target <=? length (BufReader.file b) then target
       else max (BufReader.pos b) (length (BufReader.file b)).
Proof.
  intros Hn target.
  unfold BufReader.align, BufReader.cur, BufReader.read. cbv zeta.
  rewrite (align_distance _ n Hn). fold target.
  destruct (Z.ltb_spec (Z.of_nat ((n - BufReader.pos b mod n) mod n)) (-1))
    as [Hneg|_]; [lia|].
  destruct (Z.eqb_spec (Z.of_nat ((n - BufReader.pos b mod n) mod n)) (-1))
    as [Hneg|_]; [lia|].
  cbn [BufReader.file BufReader.pos]. split; [reflexivity|].
  rewrite Nat2Z.id, length_take, length_drop.
  destruct (Nat.leb_spec target (length (BufReader.file b))); subst target; lia.
Qed.

Lemma reader_align_stops_at_end_witness :
  BufReader.pos (BufReader.align 2048 (BufReader.mk [1; 2; 3; 4; 5]%Z 2)) = 5.
Proof.
  destruct (reader_align_stops_at_end 2048 (BufReader.mk [1; 2; 3; 4; 5]%Z 2))
    as (_ & Hpos); [lia|].
  rewrite Hpos. reflexivity.
Defined.

(** A write past the end of the file, after a [seek], fills the gap
    with zero bytes; a write of no bytes leaves the file as it is,
    wherever the position stands. *)
Theorem write_past_end (off : nat) (bs : list Z) (b : BufWriter.t) :
  length (BufWriter.file b) <= off ->
  BufWriter.file (BufWriter.write bs (BufWriter.seek off b))
  = match bs with
    | [] => BufWriter.file b
    | _ => BufWriter.file b
           ++ replicate (off - length (BufWriter.file b)) 0%Z ++ bs
    end.
Proof.
  intros Hoff. unfold BufWriter.write, BufWriter.seek.
  cbn [BufWriter.file BufWriter.pos].
  destruct bs as [|x bs]; [reflexivity|].
  rewrite file_write_cons, resize_ge by exact Hoff.
  rewrite drop_ge by (cbn [length]; lia).
  rewrite app_nil_r, <- app_assoc. reflexivity.
Qed.

Lemma write_past_end_witness :
  BufWriter.file (BufWriter.write [9%Z] (BufWriter.seek 4 (BufWriter.mk [1; 2]%Z 0)))
  = [1; 2; 0; 0; 9]%Z.
Proof.
  apply (write_past_end 4 [9%Z] (BufWriter.mk [1; 2]%Z 0)). cbn. lia.
Defined.

(** A write that stays within the file replaces the bytes at its
    place and nothing else: the file keeps its length and every other
    byte.  This is how the sub-header of a stage and the table of a
    container are patched in after the content. *)
Theorem write_in_place (off : nat) (bs : list Z) (b : BufWriter.t) :
  off + length bs <= length (BufWriter.file b) ->
  let file' := BufWriter.file (BufWriter.write bs (BufWriter.seek off b)) in
  file' = take off (BufWriter.file b) ++ bs
          ++ drop (off + length bs) (BufWriter.file b)
  /\ length file' = length (BufWriter.file b).
Proof.
  intros Hfit. cbv zeta. unfold BufWriter.write, BufWriter.seek.
  cbn [BufWriter.file BufWriter.pos].
  assert (Heq : file_write (BufWriter.file b) off bs
                = take off (BufWriter.file b) ++ bs
                  ++ drop (off + length bs) (BufWriter.file b)).
  { destruct bs as [|x bs].
    - cbn [file_write app length]. rewrite Nat.add_0_r.
      symmetry. apply take_drop.
    - rewrite file_write_cons, resize_le by lia. reflexivity. }
  split; [exact Heq|]. rewrite Heq.
  rewrite !length_app, length_take, length_drop. lia.
Qed.

Lemma write_in_place_witness :
  BufWriter.file (BufWriter.write [8; 9]%Z
                    (BufWriter.seek 1 (BufWriter.mk [1; 2; 3; 4]%Z 4)))
  = [1; 8; 9; 4]%Z.
Proof.
  destruct (write_in_place 1 [8; 9]%Z (BufWriter.mk [1; 2; 3; 4]%Z 4)) as [H _].
  - cbn. lia.
  - rewrite H. reflexivity.
Defined.

(** ** The checksum step *)

(** One turn of the loop of [strcode] rotates the sixteen bits of the
    code left by five and adds the byte modulo 65536: the low eleven
    bits move up and the high five come down. *)
Theorem strcode_step_rotate (code s : Z) :
  (0 <= code < 65536)%Z ->
  strcode_step code s
  = ((code mod 2048 * 32 + code / 2048 + s) mod 65536)%Z.
Proof.
  intros Hc. unfold strcode_step. cbv zeta.
  change 65535%Z with (Z.ones 16). rewrite !Z.land_ones by lia.
  change (2 ^ 16)%Z with 65536%Z.
  assert (Hland : Z.land (code / 2048) (code * 32) = 0%Z).
  { apply Z.bits_inj'. intros i Hi.
    rewrite Z.land_spec, Z.bits_0.
    destruct (Z.lt_ge_cases i 5) as [Hlt|Hge].
    - change 32%Z with (2 ^ 5)%Z.
      rewrite (Z.mul_pow2_bits_low code 5 i Hlt). apply andb_false_r.
    - assert (Hq : (0 <= code / 2048 < 32)%Z).
      { split; [apply Z.div_pos; lia|apply Z.div_lt_upper_bound; lia]. }
      assert (Hpow : (2 ^ 5 <= 2 ^ i)%Z) by (apply Z.pow_le_mono_r; lia).
      change (2 ^ 5)%Z with 32%Z in Hpow.
      rewrite (Z.bits_above_log2 (code / 2048)%Z i); [reflexivity|lia|].
      destruct (Z.eq_dec (code / 2048)%Z 0%Z) as [->|Hnz]; [cbn; lia|].
      apply Z.log2_lt_pow2; lia. }
  assert (Hlor : Z.lor (Z.shiftr code 11) (Z.shiftl code 5)
                 = (code / 2048 + code * 32)%Z).
  { rewrite Z.shiftr_div_pow2, Z.shiftl_mul_pow2 by lia.
    change (2 ^ 11)%Z with 2048%Z. change (2 ^ 5)%Z with 32%Z.
    rewrite <- Z.lxor_lor by exact Hland.
    rewrite <- Z.add_nocarry_lxor by exact Hland. reflexivity. }
  rewrite Hlor.
  rewrite Zplus_mod_idemp_l.
  pose proof (Z.div_mod code 2048 ltac:(lia)) as Hdm.
  pose proof (Z.mod_pos_bound code 2048 ltac:(lia)) as Hm.
  assert (Hq : (0 <= code / 2048 < 32)%Z).
  { split; [apply Z.div_pos; lia|apply Z.div_lt_upper_bound; lia]. }
  replace (code / 2048 + code * 32 + s)%Z
    with (code mod 2048 * 32 + code / 2048 + s + (code / 2048) * 65536)%Z by lia.
  apply Z.mod_add. lia.
Qed.

Lemma strcode_step_rotate_witness :
  strcode_step 32769 7 = 55%Z.
Proof.
  rewrite (strcode_step_rotate 32769 7); [reflexivity|lia].
Defined.

(** ** The config list, read *)

Lemma directive_step_rank (section : option ascii) (k : kind)
    (section' : option ascii) :
  directive_step section k = Some section' ->
  exists c, section' = Some c
            /\ match section with
               | Some s => section_rank s <= section_rank c
               | None => True
               end.
Proof.
  destruct k; cbn [directive_step].
  - destruct section; cbn; [discriminate|]. intros [= <-]. eauto.
  - destruct section as [s|]; cbn.
    + destruct (Ascii.eqb_spec s "r") as [->|]; [|discriminate].
      intros [= <-]. eexists. split; [reflexivity|]. cbn. lia.
    + intros [= <-]. eauto.
  - destruct section as [s|]; cbn; [|discriminate].
    destruct (Ascii.eqb_spec s "r") as [->|].
    + intros [= <-]. eexists. split; [reflexivity|]. cbn. lia.
    + destruct (Ascii.eqb_spec s "n") as [->|]; [|discriminate].
      intros [= <-]. eexists. split; [reflexivity|]. cbn. lia.
  - destruct section as [s|]; cbn; [|discriminate].
    destruct (Ascii.eqb_spec s "c") as [->|]; [|discriminate].
    intros [= <-]. eexists. split; [reflexivity|]. cbn. lia.
Qed.

Lemma nondecreasing_cons (a : nat) (l : list nat) :
  Forall (fun b => a <= b) l -> nondecreasing l = true ->
  nondecreasing (a :: l) = true.
Proof.
  intros Hall Hl. destruct l as [|b l]; [reflexivity|].
  apply Forall_cons in Hall as [Hab _].
  change (nondecreasing (a :: b :: l))
    with ((a <=? b) && nondecreasing (b :: l)).
  rewrite Hl, andb_true_r. apply Nat.leb_le. exact Hab.
Qed.

(** What [read_config] adds to [files]: one entry for every line that
    is not a directive, named as the line, each in a section that is
    not before the current one, in the order of the directives. *)
Lemma read_config_appends dir lines section files r :
  read_config dir lines section files = Ok r ->
  exists new,
    r = files ++ new
    /\ map asset_name new = asset_lines lines
    /\ Forall (fun f : stage_file =>
                 match section with
                 | Some s => section_rank s <= section_rank f.1.2
                 | None => True
                 end) new
    /\ nondecreasing (map (fun f : stage_file => section_rank f.1.2) new) = true.
Proof.
  revert section files. induction lines as [|line lines IH];
    intros section files H.
  - cbn in H. injection H as <-. exists []. rewrite app_nil_r.
    repeat split. constructor.
  - destruct (directive_of line) as [k|] eqn:Ek.
    + rewrite (read_config_directive _ _ _ _ _ _ Ek) in H.
      destruct (directive_step section k) as [section'|] eqn:Es; [|discriminate].
      apply directive_step_rank in Es as (c & -> & Hrank).
      apply IH in H as (new & -> & Hnames & Hall & Hsorted).
      exists new. split; [reflexivity|]. split; [|split; [|exact Hsorted]].
      * unfold asset_lines in *. cbn [List.filter]. rewrite Ek. exact Hnames.
      * eapply Forall_impl; [exact Hall|]. intros f Hf. cbv beta iota in Hf.
        destruct section as [s|]; [|exact I]. clear - Hf Hrank. lia.
    + rewrite (read_config_asset _ _ _ _ _ Ek) in H.
      destruct section as [sec|]; [|discriminate].
      destruct (split "." (strip line)) as [|name [|ext [|? ?]]] eqn:Esp;
        try discriminate.
      destruct (dir !! strip line) as [content|]; [|discriminate].
      apply IH in H as (new & -> & Hnames & Hall & Hsorted).
      exists ((name, ext, sec, length content) :: new).
      split; [rewrite <- app_assoc; reflexivity|].
      split; [|split].
      * unfold asset_lines in *. cbn [List.filter]. rewrite Ek.
        cbn [map asset_name]. rewrite Hnames.
        rewrite (split_two _ _ _ Esp). reflexivity.
      * constructor; [cbn; lia|exact Hall].
      * cbn [map]. apply nondecreasing_cons; [|exact Hsorted].
        apply Forall_map. exact Hall.
Qed.

(** The entries [pack_stage] reads from a config list are its lines
    that are not directives, in order and none left out, each named as
    its line says; and their sections never go back in the order
    Resident, NoCache, Cache, Sound. *)
Theorem read_config_lists_lines (dir : gmap string (list Z))
    (lines : list string) (files : list stage_file) :
  read_config dir lines None [] = Ok files ->
  map asset_name files = asset_lines lines
  /\ nondecreasing (map (fun f : stage_file => section_rank f.1.2) files) = true.
Proof.
  intros H. apply read_config_appends in H as (new & -> & Hnames & _ & Hsorted).
  split; assumption.
Qed.

Lemma read_config_lists_lines_witness :
  map asset_name demo_files = asset_lines (data_cnf demo_stage)
  /\ nondecreasing (map (fun f : stage_file => section_rank f.1.2) demo_files)
     = true.
Proof.
  apply (read_config_lists_lines (assets demo_stage) (data_cnf demo_stage)
           demo_files).
  vm_compute. reflexivity.
Defined.

(** Where [read_config] raises on a line that names a file: before any
    directive the assertion fails; a name that does not split at one
    dot into two parts cannot be unpacked into [(name, ext)]; and a
    file that the stage directory does not hold has no size. *)
Theorem read_config_line_errors (dir : gmap string (list Z)) (line : string)
    (lines : list string) (section : option ascii) (files : list stage_file) :
  directive_of line = None ->
  (section = None ->
   read_config dir (line :: lines) section files = Raise AssertionError)
  /\ (section <> None -> length (split "." (strip line)) <> 2 ->
      read_config dir (line :: lines) section files = Raise ValueError)
  /\ (section <> None -> length (split "." (strip line)) = 2 ->
      dir !! strip line = None ->
      read_config dir (line :: lines) section files = Raise OSError).
Proof.
  intros Ek. rewrite (read_config_asset _ _ _ _ _ Ek).
  split; [|split].
  - intros ->. reflexivity.
  - intros Hs Hlen. destruct section as [sec|]; [|congruence].
    destruct (split "." (strip line)) as [|name [|ext [|? ?]]];
      try reflexivity.
    cbn in Hlen. lia.
  - intros Hs Hlen Hdir. destruct section as [sec|]; [|congruence].
    destruct (split "." (strip line)) as [|name [|ext [|? ?]]];
      try (cbn in Hlen; lia).
    rewrite Hdir. reflexivity.
Qed.

Lemma read_config_line_errors_witness :
  read_config ∅ ["a.b.c" +:+ nl] (Some "n"%char) [] = Raise ValueError
  /\ read_config ∅ ["a.tex" +:+ nl] (Some "n"%char) [] = Raise OSError.
Proof.
  split.
  - apply (read_config_line_errors ∅ ("a.b.c" +:+ nl) [] (Some "n"%char) []);
      [reflexivity|discriminate|vm_compute; lia].
  - apply (read_config_line_errors ∅ ("a.tex" +:+ nl) [] (Some "n"%char) []);
      [reflexivity|discriminate|reflexivity|reflexivity].
Defined.
